(** * Car Intel API gate: a shallow embedding of the usage and key-validation
    functions of the Supabase schema.

    Sources embedded:
    - [get_org_monthly_usage] and [increment_daily_usage]
      (supabase/migrations/20231205000002_create_api_infrastructure.sql);
    - [validate_api_key], in its last definition, which adds the
      organization-status check (the admin-system migration, src/unnamed/part_010),
      and its earlier definition;
    - from the admin-system migration: [is_admin], [get_admin_role],
      [is_enterprise_domain], [get_enterprise_tier_for_email], the trigger
      [auto_assign_enterprise_tier] and [accept_invite].

    SQL conventions of the model:
    - a nullable column is an [option]; NULL is [None];
    - a comparison with a NULL operand is NULL, and PL/pgSQL's [IF] only takes
      its branch on TRUE, so a NULL condition behaves as FALSE;
    - [SELECT * INTO rec ... ] that finds no row leaves every field of [rec]
      NULL: a missing row is modelled as [None] and every field read from it
      as [None];
    - INTEGER columns are 32-bit: an arithmetic result outside the range
      raises "integer out of range" and the statement (and the function
      call) is rolled back, modelled as [None] for the new store;
    - timestamps ([NOW()]) are integers, [DATE] values are (year, month, day). *)

From Stdlib Require Import ZArith Bool List Ascii String Lia.
Import ListNotations.
Open Scope string_scope.
Open Scope Z_scope.
Open Scope list_scope.

(** ** Data model *)

Definition uuid := Z.
Definition timestamp := Z.

Record date := mk_date { year : Z; month : Z; day : Z }.

Definition date_eqb (a b : date) : bool :=
  (year a =? year b) && (month a =? month b) && (day a =? day b).

(** [a <= b] on dates, lexicographic on (year, month, day). *)
Definition date_le (a b : date) : bool :=
  (year a <? year b)
  || ((year a =? year b) && ((month a <? month b)
                             || ((month a =? month b) && (day a <=? day b)))).

(** [date_trunc('month', d)::DATE]: the first day of the month of [d]. *)
Definition date_trunc_month (d : date) : date := mk_date (year d) (month d) 1.

(** [organizations.status]: CHECK (status IN ('active', 'paused',
    'suspended', 'revoked')), nullable. *)
Inductive org_status := Active | Paused | Suspended | Revoked.

Definition org_status_text (s : org_status) : string :=
  match s with
  | Active => "active" | Paused => "paused"
  | Suspended => "suspended" | Revoked => "revoked"
  end.

(** [organizations.subscription_status]: CHECK (subscription_status IN
    ('active', 'past_due', 'canceled', 'trialing')), nullable. *)
Inductive subscription_status_t := SubActive | PastDue | Canceled | Trialing.

Definition subscription_status_text (s : subscription_status_t) : string :=
  match s with
  | SubActive => "active" | PastDue => "past_due"
  | Canceled => "canceled" | Trialing => "trialing"
  end.

(** The columns of [subscription_tiers] read by the gate. *)
Record subscription_tier := mk_tier {
  st_id : string;
  monthly_token_limit : option Z;      (* NULL = unlimited *)
  rate_limit_per_minute : Z            (* NOT NULL *)
}.

(** The columns of [organizations] read by the gate. *)
Record organization := mk_org {
  o_id : uuid;
  o_name : string;
  subscription_tier_id : option string;
  subscription_status : option subscription_status_t;
  status : option org_status
}.

(** The columns of [api_keys] read or written by the gate. *)
Record api_key := mk_key {
  ak_id : uuid;
  ak_organization_id : uuid;
  key_hash : string;
  rate_limit_override : option Z;      (* NULL = use tier default *)
  is_active : option bool;
  last_used_at : option timestamp;
  expires_at : option timestamp        (* NULL = never expires *)
}.

(** A row of [usage_daily]; UNIQUE(organization_id, date, source, endpoint).
    The key columns are NOT NULL, [organization_id] REFERENCES organizations;
    the counters are nullable [INTEGER DEFAULT 0] columns ([None] = NULL). *)
Record usage_daily_row := mk_usage {
  ud_organization_id : uuid;
  ud_date : date;
  ud_source : string;                  (* VARCHAR(20) *)
  ud_endpoint : string;                (* VARCHAR(100) *)
  request_count : option Z;
  tokens_used : option Z
}.

Record db := mk_db {
  api_keys : list api_key;
  organizations : list organization;
  subscription_tiers : list subscription_tier;
  usage_daily : list usage_daily_row
}.

(** The clock of the server: [NOW()] and [CURRENT_DATE]. *)
Record clock := mk_clock { now : timestamp; current_date : date }.

Definition int_min : Z := - 2147483648.
Definition int_max : Z := 2147483647.

(** A value of a 32-bit INTEGER column, or the error PostgreSQL raises. *)
Definition int4 (z : Z) : option Z :=
  if (int_min <=? z) && (z <=? int_max) then Some z else None.

(** ** [get_org_monthly_usage(org_id)]

    [SELECT COALESCE(SUM(request_count), 0), COALESCE(SUM(tokens_used), 0)
     FROM usage_daily WHERE organization_id = org_id
     AND date >= date_trunc('month', CURRENT_DATE)::DATE].
    The sums are BIGINT over INTEGER rows and are kept as unbounded [Z].
    [SUM] skips NULL values and [COALESCE] turns the empty sum into 0: a NULL
    counter adds nothing. *)
Definition sum_value (v : option Z) : Z :=
  match v with Some z => z | None => 0 end.

Definition in_current_month_of (c : clock) (org_id : uuid) (r : usage_daily_row) : bool :=
  (ud_organization_id r =? org_id)
  && date_le (date_trunc_month (current_date c)) (ud_date r).

Definition get_org_monthly_usage (c : clock) (d : db) (org_id : uuid) : Z * Z :=
  fold_right
    (fun r acc =>
       if in_current_month_of c org_id r
       then (sum_value (request_count r) + fst acc, sum_value (tokens_used r) + snd acc)
       else acc)
    (0, 0) (usage_daily d).

(** ** [increment_daily_usage(p_org_id, p_date, p_source, p_endpoint,
       p_requests, p_tokens)]

    [INSERT ... VALUES (..., p_requests, p_tokens)
     ON CONFLICT (organization_id, date, source, endpoint) DO UPDATE SET
       request_count = usage_daily.request_count + p_requests,
       tokens_used = usage_daily.tokens_used + p_tokens].
    The statement runs atomically on the conflicting row, so each call is one
    step of the store; [None] is an error, after which the call's transaction
    leaves the store as it was:
    - an argument that is not an INTEGER ("integer out of range");
    - a NULL key argument (NOT NULL violation, checked before the conflict);
    - a [source] longer than 20 or an [endpoint] longer than 100 characters
      ("value too long"; the parameters' VARCHAR lengths are not enforced,
      the columns' are, and excess spaces are cut off instead);
    - on the [DO UPDATE] path, a sum that is not an INTEGER;
    - on the insert path, an organization absent from [organizations]
      (foreign key violation; the update path keeps [organization_id] and
      checks no reference).
    A NULL [p_requests] or [p_tokens] is stored as NULL by the insert, and
    [NULL + x] and [x + NULL] are NULL on the update path. *)
Fixpoint all_spaces (s : string) : bool :=
  match s with
  | EmptyString => true
  | String ch s' => Ascii.eqb ch " "%char && all_spaces s'
  end.

(** The value stored in a VARCHAR(n) column, or the error. *)
Definition to_varchar (n : nat) (s : string) : option string :=
  if Nat.leb (String.length s) n then Some s
  else if all_spaces (substring n (String.length s - n) s) then Some (substring 0 n s)
  else None.

(** An INTEGER argument: [None] (NULL) or a value in range. *)
Definition int4_arg (v : option Z) : bool :=
  match v with
  | Some z => (int_min <=? z) && (z <=? int_max)
  | None => true
  end.

(** [counter + delta] of the update: [Some v] the new value, [None] the error. *)
Definition add_counter (counter delta : option Z) : option (option Z) :=
  match counter, delta with
  | Some x, Some y => option_map Some (int4 (x + y))
  | _, _ => Some None
  end.

(** The foreign key [organization_id REFERENCES organizations(id)]. *)
Definition org_exists (d : db) (org_id : uuid) : bool :=
  existsb (fun o => o_id o =? org_id) (organizations d).

Definition usage_key_matches (org_id : uuid) (dt : date) (source endpoint : string)
    (r : usage_daily_row) : bool :=
  (ud_organization_id r =? org_id) && date_eqb (ud_date r) dt
  && String.eqb (ud_source r) source && String.eqb (ud_endpoint r) endpoint.

Definition usage_key (r : usage_daily_row) : uuid * date * string * string :=
  (ud_organization_id r, ud_date r, ud_source r, ud_endpoint r).

(** The [DO UPDATE SET] branch, applied to the conflicting row(s). *)
Fixpoint bump_rows (m : usage_daily_row -> bool) (p_requests p_tokens : option Z)
    (rows : list usage_daily_row) : option (list usage_daily_row) :=
  match rows with
  | [] => Some []
  | r :: rs =>
      if m r then
        match add_counter (request_count r) p_requests, add_counter (tokens_used r) p_tokens,
              bump_rows m p_requests p_tokens rs with
        | Some rc, Some tu, Some rs' =>
            Some (mk_usage (ud_organization_id r) (ud_date r) (ud_source r)
                    (ud_endpoint r) rc tu :: rs')
        | _, _, _ => None
        end
      else option_map (cons r) (bump_rows m p_requests p_tokens rs)
  end.

Definition with_usage_daily (d : db) (rows : list usage_daily_row) : db :=
  mk_db (api_keys d) (organizations d) (subscription_tiers d) rows.

Definition increment_daily_usage (d : db) (p_org_id : option uuid) (p_date : option date)
    (p_source p_endpoint : option string) (p_requests p_tokens : option Z) : option db :=
  if negb (int4_arg p_requests && int4_arg p_tokens) then None else
  match p_org_id, p_date, p_source, p_endpoint with
  | Some org, Some dt, Some src, Some ep =>
      match to_varchar 20 src, to_varchar 100 ep with
      | Some source, Some endpoint =>
          let m := usage_key_matches org dt source endpoint in
          if existsb m (usage_daily d) then
            option_map (with_usage_daily d) (bump_rows m p_requests p_tokens (usage_daily d))
          else if org_exists d org then
            Some (with_usage_daily d
                    (usage_daily d
                     ++ [mk_usage org dt source endpoint p_requests p_tokens]))
          else None
      | _, _ => None
      end
  | _, _, _, _ => None
  end.

(** ** [validate_api_key(p_key_hash)] *)

(** One row of [RETURNS TABLE(...)]. *)
Record validation_row := mk_row {
  api_key_id : option uuid;
  organization_id : option uuid;
  org_name : option string;
  tier_id : option string;
  rate_limit : option Z;
  monthly_limit : option Z;
  is_valid : bool;
  rejection_reason : option string
}.

Definition find_key (d : db) (h : string) : option api_key :=
  find (fun k => String.eqb (key_hash k) h) (api_keys d).

Definition find_org (d : db) (id : uuid) : option organization :=
  find (fun o => o_id o =? id) (organizations d).

(** [WHERE st.id = v_org_record.subscription_tier_id]: a NULL id finds nothing. *)
Definition find_tier (d : db) (tid : option string) : option subscription_tier :=
  match tid with
  | Some t => find (fun st => String.eqb (st_id st) t) (subscription_tiers d)
  | None => None
  end.

(** Fields of a record variable; all NULL when [SELECT INTO] found no row. *)
Definition org_name_of (o : option organization) : option string :=
  option_map o_name o.
Definition org_tier_id_of (o : option organization) : option string :=
  match o with Some o => subscription_tier_id o | None => None end.
Definition org_status_of (o : option organization) : option org_status :=
  match o with Some o => status o | None => None end.
Definition org_subscription_status_of (o : option organization)
    : option subscription_status_t :=
  match o with Some o => subscription_status o | None => None end.
Definition tier_limit_of (t : option subscription_tier) : option Z :=
  match t with Some t => monthly_token_limit t | None => None end.
Definition tier_rate_of (t : option subscription_tier) : option Z :=
  option_map rate_limit_per_minute t.

Definition coalesce (a b : option Z) : option Z :=
  match a with Some x => Some x | None => b end.

(** [IF NOT v_key_record.is_active]: NOT NULL is NULL, not TRUE. *)
Definition key_disabled_cond (k : api_key) : bool :=
  match is_active k with Some false => true | _ => false end.

(** [IF expires_at IS NOT NULL AND expires_at < NOW()]. *)
Definition key_expired_cond (c : clock) (k : api_key) : bool :=
  match expires_at k with Some e => e <? now c | None => false end.

(** [IF status IS NOT NULL AND status != 'active'], returning the reason
    ['organization_' || status]. *)
Definition org_status_rejection (o : option organization) : option string :=
  match org_status_of o with
  | Some Active | None => None
  | Some s => Some (String.append "organization_" (org_status_text s))
  end.

(** [IF subscription_status != 'active' AND subscription_status != 'trialing']:
    both comparisons are NULL on a NULL status. *)
Definition subscription_inactive_cond (o : option organization) : bool :=
  match org_subscription_status_of o with
  | Some SubActive | Some Trialing | None => false
  | Some _ => true
  end.

(** [UPDATE api_keys SET last_used_at = NOW() WHERE id = key_id]. *)
Definition touch_key (c : clock) (id : uuid) (k : api_key) : api_key :=
  if ak_id k =? id then
    mk_key (ak_id k) (ak_organization_id k) (key_hash k) (rate_limit_override k)
      (is_active k) (Some (now c)) (expires_at k)
  else k.

Definition touch_last_used (c : clock) (d : db) (id : uuid) : db :=
  mk_db (map (touch_key c id) (api_keys d)) (organizations d)
    (subscription_tiers d) (usage_daily d).

Definition validate_api_key (c : clock) (d : db) (p_key_hash : string)
    : validation_row * db :=
  match find_key d p_key_hash with
  | None => (mk_row None None None None None None false (Some "invalid_key"), d)
  | Some k =>
    if key_disabled_cond k then
      (mk_row (Some (ak_id k)) (Some (ak_organization_id k)) None None None None
         false (Some "key_disabled"), d)
    else if key_expired_cond c k then
      (mk_row (Some (ak_id k)) (Some (ak_organization_id k)) None None None None
         false (Some "key_expired"), d)
    else
      let o := find_org d (ak_organization_id k) in
      match org_status_rejection o with
      | Some reason =>
          (mk_row (Some (ak_id k)) (Some (ak_organization_id k)) (org_name_of o)
             (org_tier_id_of o) None None false (Some reason), d)
      | None =>
        if subscription_inactive_cond o then
          (mk_row (Some (ak_id k)) (Some (ak_organization_id k)) (org_name_of o)
             (org_tier_id_of o) None None false (Some "subscription_inactive"), d)
        else
          let t := find_tier d (org_tier_id_of o) in
          let rate := coalesce (rate_limit_override k) (tier_rate_of t) in
          let allowed :=
            (mk_row (Some (ak_id k)) (Some (ak_organization_id k)) (org_name_of o)
               (org_tier_id_of o) rate (tier_limit_of t) true None,
             touch_last_used c d (ak_id k)) in
          match tier_limit_of t with
          | Some limit =>
              let v_current_usage := snd (get_org_monthly_usage c d (ak_organization_id k)) in
              if limit <=? v_current_usage then
                (mk_row (Some (ak_id k)) (Some (ak_organization_id k)) (org_name_of o)
                   (org_tier_id_of o) rate (Some limit) false (Some "quota_exceeded"), d)
              else allowed
          | None => allowed
          end
      end
  end.

(** ** Sample store: the seeded tiers and one organization with one key *)

Definition free_tier := mk_tier "free" (Some 1000) 10.
Definition starter_tier := mk_tier "starter" (Some 50000) 60.
Definition enterprise_tier := mk_tier "enterprise" None 1000.
Definition seeded_tiers := [free_tier; starter_tier; mk_tier "pro" (Some 500000) 300;
                            enterprise_tier].

Definition sample_clock := mk_clock 1000 (mk_date 2024 12 15).

Definition sample_org (st : option org_status) (sub : option subscription_status_t)
    (tier : option string) : organization :=
  mk_org 1 "Acme" tier sub st.

Definition sample_key (override : option Z) (active : option bool)
    (expires : option timestamp) : api_key :=
  mk_key 7 1 "h" override active None expires.

Definition usage_row (dt : date) (tokens : Z) : usage_daily_row :=
  mk_usage 1 dt "api" "/lookup" (Some tokens) (Some tokens).

Definition sample_db (k : api_key) (o : list organization) (tokens : Z) : db :=
  mk_db [k] o seeded_tiers [usage_row (mk_date 2024 12 3) tokens].

(** ** The gate as the spec describes it

    Section 4.1 lists the rejection checks as an ordered list of guards, the
    first matching one giving the reason. Each guard reads the rows the gate
    looked up; an absent row or a NULL field makes a guard not match. *)

Record gate_input := mk_gate_input {
  gi_key : option api_key;
  gi_org : option organization;
  gi_tier : option subscription_tier;
  gi_usage : Z
}.

Definition gate_input_of (c : clock) (d : db) (h : string) : gate_input :=
  match find_key d h with
  | None => mk_gate_input None None None 0
  | Some k =>
      let o := find_org d (ak_organization_id k) in
      mk_gate_input (Some k) o (find_tier d (org_tier_id_of o))
        (snd (get_org_monthly_usage c d (ak_organization_id k)))
  end.

Definition guard := gate_input -> option string.

Definition guard_invalid_key : guard := fun g =>
  match gi_key g with None => Some "invalid_key" | Some _ => None end.

Definition guard_key_disabled : guard := fun g =>
  match gi_key g with
  | Some k => match is_active k with Some false => Some "key_disabled" | _ => None end
  | None => None
  end.

Definition guard_key_expired (c : clock) : guard := fun g =>
  match gi_key g with
  | Some k =>
      match expires_at k with
      | Some e => if e <? now c then Some "key_expired" else None
      | None => None
      end
  | None => None
  end.

Definition guard_organization_status : guard := fun g =>
  match gi_org g with
  | Some o =>
      match status o with
      | Some Paused => Some "organization_paused"
      | Some Suspended => Some "organization_suspended"
      | Some Revoked => Some "organization_revoked"
      | Some Active | None => None
      end
  | None => None
  end.

Definition guard_subscription_inactive : guard := fun g =>
  match gi_org g with
  | Some o =>
      match subscription_status o with
      | Some PastDue | Some Canceled => Some "subscription_inactive"
      | Some SubActive | Some Trialing | None => None
      end
  | None => None
  end.

Definition guard_quota_exceeded : guard := fun g =>
  match gi_tier g with
  | Some t =>
      match monthly_token_limit t with
      | Some limit => if limit <=? gi_usage g then Some "quota_exceeded" else None
      | None => None
      end
  | None => None
  end.

Definition spec_guards (c : clock) : list guard :=
  [guard_invalid_key; guard_key_disabled; guard_key_expired c;
   guard_organization_status; guard_subscription_inactive; guard_quota_exceeded].

(** The reason of the first guard that matches; [None] means Allowed. *)
Fixpoint first_match (gs : list guard) (g : gate_input) : option string :=
  match gs with
  | [] => None
  | x :: xs => match x g with Some r => Some r | None => first_match xs g end
  end.

(** ** Calls of [increment_daily_usage] as seen by the store

    A call that raises leaves the store as it was (its transaction is rolled
    back); the caller logs the error and goes on. *)
Definition record_usage (d : db) (org : uuid) (dt : date) (source endpoint : string)
    (p_requests p_tokens : Z) : db :=
  match increment_daily_usage d (Some org) (Some dt) (Some source) (Some endpoint)
          (Some p_requests) (Some p_tokens) with
  | Some d' => d'
  | None => d
  end.

(** [n] calls with the default deltas [p_requests = 1], [p_tokens = 1]. *)
Fixpoint record_usage_n (n : nat) (d : db) (org : uuid) (dt : date)
    (source endpoint : string) : db :=
  match n with
  | O => d
  | S n => record_usage_n n (record_usage d org dt source endpoint 1 1) org dt source endpoint
  end.

(** The counters (request_count, tokens_used) of the row of a composite key. *)
Definition usage_counters (d : db) (org : uuid) (dt : date) (source endpoint : string)
    : option (option Z * option Z) :=
  option_map (fun r => (request_count r, tokens_used r))
    (find (usage_key_matches org dt source endpoint) (usage_daily d)).

(** The same, an absent row or a NULL counter counting as 0. *)
Definition counters_or_zero (d : db) (org : uuid) (dt : date) (source endpoint : string)
    : Z * Z :=
  match usage_counters d org dt source endpoint with
  | Some (rc, tu) => (sum_value rc, sum_value tu)
  | None => (0, 0)
  end.

(** The row of the composite key, if there is one, has both counters set. *)
Definition counters_set (d : db) (org : uuid) (dt : date) (source endpoint : string)
    : Prop :=
  match usage_counters d org dt source endpoint with
  | Some (rc, tu) => rc <> None /\ tu <> None
  | None => True
  end.

(** The constraints of the table: the composite key is UNIQUE and the
    counters are INTEGER values or NULL. *)
Definition int4_range (z : Z) : Prop := int_min <= z <= int_max.

Definition counter_in_range (v : option Z) : Prop :=
  match v with Some z => int4_range z | None => True end.

Definition usage_wf (d : db) : Prop :=
  NoDup (map usage_key (usage_daily d))
  /\ Forall (fun r => counter_in_range (request_count r) /\ counter_in_range (tokens_used r))
       (usage_daily d).

(** The row after the [DO UPDATE SET] of a call with non-NULL deltas: a
    NULL counter stays NULL. *)
Definition bump (m : usage_daily_row -> bool) (p_requests p_tokens : Z)
    (r : usage_daily_row) : usage_daily_row :=
  if m r then
    mk_usage (ud_organization_id r) (ud_date r) (ud_source r) (ud_endpoint r)
      (option_map (fun x => x + p_requests) (request_count r))
      (option_map (fun x => x + p_tokens) (tokens_used r))
  else r.

(** ** The monthly sum as the spec states it *)

Definition sum_Z (l : list Z) : Z := fold_right Z.add 0 l.

(** The values of a column that are set, NULLs left out. *)
Fixpoint non_null (l : list (option Z)) : list Z :=
  match l with
  | [] => []
  | Some z :: l' => z :: non_null l'
  | None :: l' => non_null l'
  end.

(** The first day of the calendar month of a date. *)
Definition first_day_of_month (d : date) : date := mk_date (year d) (month d) 1.

(** [a] is on or after [b] in the calendar. *)
Definition date_on_or_after (a b : date) : Prop :=
  year a > year b
  \/ (year a = year b /\ (month a > month b \/ (month a = month b /\ day a >= day b))).

(** ** The core as a state machine

    The store with the server clock; each step is one call of the core, run
    atomically, the clock never going back. *)
Record sys := mk_sys { sys_db : db; sys_clock : clock }.

Inductive core_step : sys -> sys -> Prop :=
  (** [validate_api_key(h)] at a clock no earlier than the last one *)
  | step_validate (d : db) (c c' : clock) (h : string) :
      now c <= now c' ->
      core_step (mk_sys d c) (mk_sys (snd (validate_api_key c' d h)) c')
  (** [increment_daily_usage(...)] with non-negative deltas *)
  | step_record_usage (d : db) (c : clock) (org : uuid) (dt : date)
      (source endpoint : string) (pr pt : Z) :
      0 <= pr -> 0 <= pt ->
      core_step (mk_sys d c) (mk_sys (record_usage d org dt source endpoint pr pt) c)
  (** [get_org_monthly_usage(org)]: a query, the store is unchanged *)
  | step_monthly_usage (d : db) (c c' : clock) (org : uuid) :
      now c <= now c' ->
      core_step (mk_sys d c) (mk_sys d c').

(** No key was used after the clock's time. *)
Definition last_used_not_future (s : sys) : Prop :=
  Forall (fun k => match last_used_at k with
                   | Some t => t <= now (sys_clock s)
                   | None => True
                   end) (api_keys (sys_db s)).

(** [a] is no later than [b]; NULL (never used) precedes every time. *)
Definition lu_le (a b : option timestamp) : Prop :=
  match a, b with
  | None, _ => True
  | Some x, Some y => x <= y
  | Some _, None => False
  end.

Definition set_last_used (k : api_key) (t : option timestamp) : api_key :=
  mk_key (ak_id k) (ak_organization_id k) (key_hash k) (rate_limit_override k)
    (is_active k) t (expires_at k).

(** Row by row, a key keeps every column but [last_used_at], which stays or
    becomes the current time, and never goes back. *)
Definition keys_advance (c' : clock) (ks ks' : list api_key) : Prop :=
  Forall2 (fun k k' => k' = set_last_used k (last_used_at k')
                       /\ lu_le (last_used_at k) (last_used_at k')
                       /\ (last_used_at k' = last_used_at k
                           \/ last_used_at k' = Some (now c'))) ks ks'.

(** A counter no smaller: a set value stays set and does not decrease, a
    NULL stays NULL. *)
Definition counter_le (a b : option Z) : Prop :=
  match a, b with
  | Some x, Some y => x <= y
  | None, None => True
  | _, _ => False
  end.

(** Every day row is still there with counters no smaller. *)
Definition usage_grows (rows rows' : list usage_daily_row) : Prop :=
  forall r, In r rows -> exists r', In r' rows' /\ usage_key r' = usage_key r
    /\ counter_le (request_count r) (request_count r')
    /\ counter_le (tokens_used r) (tokens_used r').

(** ** The same store with one organization's status set to 'active' *)

Definition activate_org (id : uuid) (o : organization) : organization :=
  if o_id o =? id
  then mk_org (o_id o) (o_name o) (subscription_tier_id o) (subscription_status o) (Some Active)
  else o.

Definition with_org_active (d : db) (id : uuid) : db :=
  mk_db (api_keys d) (map (activate_org id) (organizations d)) (subscription_tiers d)
    (usage_daily d).

(** A later clock, for the sample steps. *)
Definition later_clock := mk_clock 2000 (mk_date 2024 12 16).

(** ** The earlier [validate_api_key]
    (supabase/migrations/20231205000002_create_api_infrastructure.sql), which
    the admin-system migration replaces: the same checks without the
    organization-status check. *)
Definition validate_api_key_v1 (c : clock) (d : db) (p_key_hash : string)
    : validation_row * db :=
  match find_key d p_key_hash with
  | None => (mk_row None None None None None None false (Some "invalid_key"), d)
  | Some k =>
    if key_disabled_cond k then
      (mk_row (Some (ak_id k)) (Some (ak_organization_id k)) None None None None
         false (Some "key_disabled"), d)
    else if key_expired_cond c k then
      (mk_row (Some (ak_id k)) (Some (ak_organization_id k)) None None None None
         false (Some "key_expired"), d)
    else
      let o := find_org d (ak_organization_id k) in
      if subscription_inactive_cond o then
        (mk_row (Some (ak_id k)) (Some (ak_organization_id k)) (org_name_of o)
           (org_tier_id_of o) None None false (Some "subscription_inactive"), d)
      else
        let t := find_tier d (org_tier_id_of o) in
        let rate := coalesce (rate_limit_override k) (tier_rate_of t) in
        let allowed :=
          (mk_row (Some (ak_id k)) (Some (ak_organization_id k)) (org_name_of o)
             (org_tier_id_of o) rate (tier_limit_of t) true None,
           touch_last_used c d (ak_id k)) in
        match tier_limit_of t with
        | Some limit =>
            let v_current_usage := snd (get_org_monthly_usage c d (ak_organization_id k)) in
            if limit <=? v_current_usage then
              (mk_row (Some (ak_id k)) (Some (ak_organization_id k)) (org_name_of o)
                 (org_tier_id_of o) rate (Some limit) false (Some "quota_exceeded"), d)
            else allowed
        | None => allowed
        end
  end.

(** ** Admin users (src/unnamed/part_010) *)

(** [admin_users.role]: NOT NULL CHECK (role IN ('super_admin', 'admin',
    'support')). *)
Inductive admin_role := SuperAdmin | Admin | Support.

Definition admin_role_text (r : admin_role) : string :=
  match r with SuperAdmin => "super_admin" | Admin => "admin" | Support => "support" end.

(** A row of [admin_users]; UNIQUE(user_id). *)
Record admin_user := mk_admin_user { au_user_id : uuid; au_role : admin_role }.

(** [SELECT role INTO admin_role FROM admin_users WHERE user_id = check_user_id]:
    the role of the user's row, NULL when there is none. *)
Definition admin_role_of (admins : list admin_user) (check_user_id : uuid)
    : option admin_role :=
  option_map au_role (find (fun a => au_user_id a =? check_user_id) admins).

(** [get_admin_role(check_user_id)]: the role as TEXT, or NULL. *)
Definition get_admin_role (admins : list admin_user) (check_user_id : uuid)
    : option string :=
  option_map admin_role_text (admin_role_of admins check_user_id).

(** [is_admin(check_user_id, required_role)]; [required_role] is TEXT, so any
    string or NULL may be passed. [required_role = 'super_admin'] on a NULL
    [required_role] is NULL and its branch is not taken. *)
Definition is_admin (admins : list admin_user) (check_user_id : uuid)
    (required_role : option string) : bool :=
  match get_admin_role admins check_user_id with
  | None => false
  | Some admin_role =>
      match required_role with
      | Some r =>
          if String.eqb r "super_admin" then String.eqb admin_role "super_admin"
          else if String.eqb r "admin" then
            String.eqb admin_role "super_admin" || String.eqb admin_role "admin"
          else true
      | None => true
      end
  end.

(** ** Enterprise e-mail domains (src/unnamed/part_010) *)

(** The fields of a string cut at every occurrence of the character [c]: the
    first field and the following ones. *)
Fixpoint split_fields (c : ascii) (s : string) : string * list string :=
  match s with
  | EmptyString => (EmptyString, [])
  | String a s' =>
      let (f, fs) := split_fields c s' in
      if Ascii.eqb a c then (EmptyString, f :: fs) else (String a f, fs)
  end.

(** PostgreSQL's [split_part(s, delimiter, n)] for a one-character delimiter
    and a field position [n >= 1] (the code calls it with [n = 2]): the [n]-th
    field, '' when [s] has fewer fields, NULL when [s] is NULL. *)
Definition split_part (s : option string) (c : ascii) (n : nat) : option string :=
  option_map (fun s => let (f, fs) := split_fields c s in nth (n - 1) (f :: fs) EmptyString) s.

(** [s] does not contain the character [c]. *)
Fixpoint no_char (c : ascii) (s : string) : bool :=
  match s with
  | EmptyString => true
  | String a s' => negb (Ascii.eqb a c) && no_char c s'
  end.

(** A row of [auth.users]: its id and its (nullable) e-mail. *)
Record auth_user := mk_auth_user { u_id : uuid; u_email : option string }.

(** A row of [enterprise_email_domains]: [domain] NOT NULL UNIQUE, [tier_id]
    DEFAULT 'enterprise' (nullable), [is_active] DEFAULT TRUE (nullable). *)
Record enterprise_email_domain := mk_domain {
  ed_domain : string;
  ed_tier_id : option string;
  ed_is_active : option bool
}.

(** [WHERE domain = email_domain AND is_active = TRUE]. *)
Definition domain_row_matches (email_domain : option string)
    (r : enterprise_email_domain) : bool :=
  match email_domain with
  | Some e => String.eqb (ed_domain r) e
              && match ed_is_active r with Some true => true | _ => false end
  | None => false
  end.

(** [is_enterprise_domain(p_email)]. *)
Definition is_enterprise_domain (domains : list enterprise_email_domain)
    (p_email : option string) : bool :=
  let email_domain := split_part p_email "@"%char 2 in
  existsb (domain_row_matches email_domain) domains.

(** [get_enterprise_tier_for_email(p_email)]: [SELECT tier_id INTO v_tier_id];
    NULL when no row matches. *)
Definition get_enterprise_tier_for_email (domains : list enterprise_email_domain)
    (p_email : option string) : option string :=
  let email_domain := split_part p_email "@"%char 2 in
  match find (domain_row_matches email_domain) domains with
  | Some r => ed_tier_id r
  | None => None
  end.

(** [SELECT email INTO user_email FROM auth.users WHERE id = NEW.owner_user_id]:
    NULL when [owner_user_id] is NULL or names no user. *)
Definition owner_email (users : list auth_user) (owner_user_id : option uuid)
    : option string :=
  match owner_user_id with
  | Some id =>
      match find (fun u => u_id u =? id) users with
      | Some u => u_email u
      | None => None
      end
  | None => None
  end.

Definition set_subscription_tier_id (o : organization) (t : option string) : organization :=
  mk_org (o_id o) (o_name o) t (subscription_status o) (status o).

(** The trigger [auto_assign_enterprise_tier()], run BEFORE INSERT on
    [organizations]: the row inserted is the one it returns. [owner_user_id] is
    the column [NEW.owner_user_id]. *)
Definition auto_assign_enterprise_tier (users : list auth_user)
    (domains : list enterprise_email_domain) (owner_user_id : option uuid)
    (NEW : organization) : organization :=
  let user_email := owner_email users owner_user_id in
  match user_email with
  | Some e =>
      let email_domain := split_part (Some e) "@"%char 2 in
      match find (domain_row_matches email_domain) domains with
      | Some enterprise_domain => set_subscription_tier_id NEW (ed_tier_id enterprise_domain)
      | None => NEW
      end
  | None => NEW
  end.

(** The seeded rows of [enterprise_email_domains]. *)
Definition seeded_domains : list enterprise_email_domain :=
  [mk_domain "snoopdrive.com" (Some "enterprise") (Some true);
   mk_domain "driveclub.io" (Some "enterprise") (Some true)].

(** ** [accept_invite(p_token, p_user_id)] (src/unnamed/part_010) *)

(** [organization_members.role]: CHECK (role IN ('owner', 'admin', 'member'));
    [user_invites.role] only admits 'admin' and 'member'. *)
Inductive member_role := OrgOwner | OrgAdmin | OrgMember.

(** A row of [user_invites]; [token] is UNIQUE. *)
Record user_invite := mk_invite {
  ui_id : uuid;
  ui_email : string;
  ui_organization_id : uuid;
  ui_role : member_role;
  ui_invited_by : uuid;
  ui_token : string;
  ui_expires_at : timestamp;
  ui_accepted_at : option timestamp
}.

(** A row of [organization_members]; UNIQUE(organization_id, user_id). *)
Record organization_member := mk_member {
  om_id : uuid;
  om_organization_id : uuid;
  om_user_id : uuid;
  om_role : member_role;
  om_invited_by : option uuid
}.

(** The tables [accept_invite] reads or writes. *)
Record team_db := mk_team_db {
  auth_users : list auth_user;
  user_invites : list user_invite;
  organization_members : list organization_member
}.

(** The value of [RETURNS JSONB]. *)
Inductive accept_result :=
  | AcceptFailed (error : string)        (* {success: false, error} *)
  | AcceptAlreadyMember                  (* {success: true, message: 'Already a member'} *)
  | AcceptJoined (member_id organization_id : uuid) (role : member_role).

(** [WHERE token = p_token AND accepted_at IS NULL AND expires_at > NOW()]. *)
Definition invite_usable (c : clock) (p_token : string) (i : user_invite) : bool :=
  String.eqb (ui_token i) p_token
  && match ui_accepted_at i with None => true | Some _ => false end
  && (now c <? ui_expires_at i).

(** [WHERE organization_id = org AND user_id = user]. *)
Definition is_member_of (org user : uuid) (m : organization_member) : bool :=
  (om_organization_id m =? org) && (om_user_id m =? user).

(** [UPDATE user_invites SET accepted_at = NOW() WHERE id = id]. *)
Definition mark_accepted (c : clock) (id : uuid) (i : user_invite) : user_invite :=
  if ui_id i =? id then
    mk_invite (ui_id i) (ui_email i) (ui_organization_id i) (ui_role i) (ui_invited_by i)
      (ui_token i) (ui_expires_at i) (Some (now c))
  else i.

(** One call, in one transaction. [fresh_id] is the value [gen_random_uuid()]
    gives the new member row. [None] is an error raised by the INSERT: its
    [user_id] must name a row of [auth.users] (the invite's organization exists,
    its invites being deleted with it); the call is then rolled back. *)
Definition accept_invite (c : clock) (fresh_id : uuid) (s : team_db)
    (p_token : string) (p_user_id : uuid) : option (accept_result * team_db) :=
  match find (invite_usable c p_token) (user_invites s) with
  | None => Some (AcceptFailed "Invalid or expired invite", s)
  | Some v_invite =>
      if existsb (is_member_of (ui_organization_id v_invite) p_user_id)
           (organization_members s) then
        Some (AcceptAlreadyMember,
              mk_team_db (auth_users s) (map (mark_accepted c (ui_id v_invite)) (user_invites s))
                (organization_members s))
      else if existsb (fun u => u_id u =? p_user_id) (auth_users s) then
        Some (AcceptJoined fresh_id (ui_organization_id v_invite) (ui_role v_invite),
              mk_team_db (auth_users s) (map (mark_accepted c (ui_id v_invite)) (user_invites s))
                (organization_members s
                 ++ [mk_member fresh_id (ui_organization_id v_invite) p_user_id
                       (ui_role v_invite) (Some (ui_invited_by v_invite))]))
      else None
  end.

(** The key UNIQUE(organization_id, user_id) of a member row. *)
Definition member_key (m : organization_member) : uuid * uuid :=
  (om_organization_id m, om_user_id m).

(** A sample invite and team. *)
Definition sample_invite : user_invite :=
  mk_invite 50 "bob@example.com" 1 OrgMember 2 "tok" 5000 None.

Definition sample_team : team_db :=
  mk_team_db [mk_auth_user 2 (Some "alice@acme.com"); mk_auth_user 3 (Some "carol@other.org")]
    [sample_invite] [mk_member 60 1 2 OrgOwner None].

(** * Properties *)

(** ** The spec's scenarios, evaluated *)

(** Scenario A: limit 1000, usage 500: allowed at the tier's rate. *)
Example scenario_A :
  fst (validate_api_key sample_clock
         (sample_db (sample_key None (Some true) None)
            [sample_org (Some Active) (Some SubActive) (Some "free")] 500) "h")
  = mk_row (Some 7) (Some 1) (Some "Acme") (Some "free") (Some 10) (Some 1000) true None.
Proof. reflexivity. Qed.

(** Scenario B: usage 1000 reaches the limit. *)
Example scenario_B :
  rejection_reason (fst (validate_api_key sample_clock
         (sample_db (sample_key None (Some true) None)
            [sample_org (Some Active) (Some SubActive) (Some "free")] 1000) "h"))
  = Some "quota_exceeded".
Proof. reflexivity. Qed.

(** Scenario C: a paused organization, no usage. *)
Example scenario_C :
  rejection_reason (fst (validate_api_key sample_clock
         (sample_db (sample_key None (Some true) None)
            [sample_org (Some Paused) (Some SubActive) (Some "free")] 0) "h"))
  = Some "organization_paused".
Proof. reflexivity. Qed.

(** Scenario D: an unknown hash. *)
Example scenario_D :
  rejection_reason (fst (validate_api_key sample_clock
         (sample_db (sample_key None (Some true) None)
            [sample_org (Some Active) (Some SubActive) (Some "free")] 0) "other"))
  = Some "invalid_key".
Proof. reflexivity. Qed.

(** Scenario E: the key's override 500 wins over the starter default 60. *)
Example scenario_E :
  rate_limit (fst (validate_api_key sample_clock
         (sample_db (sample_key (Some 500) (Some true) None)
            [sample_org (Some Active) (Some SubActive) (Some "starter")] 0) "h"))
  = Some 500.
Proof. reflexivity. Qed.

(** Rows of a previous month and of other organizations are not counted, nor
    is a NULL counter. *)
Example monthly_usage_sample :
  get_org_monthly_usage sample_clock
    (mk_db [] [] [] [usage_row (mk_date 2024 12 1) 3; usage_row (mk_date 2024 11 30) 5;
                     mk_usage 2 (mk_date 2024 12 2) "api" "/x" (Some 11) (Some 11);
                     mk_usage 1 (mk_date 2024 12 9) "mcp" "/x" (Some 2) (Some 4);
                     mk_usage 1 (mk_date 2024 12 10) "mcp" "/y" None (Some 6)]) 1
  = (5, 13).
Proof. reflexivity. Qed.

(** ** C1: the checks in their fixed order, first match wins *)

(** Case analysis on the innermost scrutinees of the goal. *)
Ltac split_matches :=
  repeat match goal with
         | |- context [match ?x with _ => _ end] =>
             lazymatch x with
             | context [match _ with _ => _ end] => fail
             | _ => destruct x eqn:?
             end
         end.

Ltac unfold_gate :=
  unfold first_match, guard_invalid_key, guard_key_disabled, guard_key_expired,
    guard_organization_status, guard_subscription_inactive, guard_quota_exceeded,
    org_status_rejection, subscription_inactive_cond, key_disabled_cond,
    key_expired_cond, org_status_of, org_subscription_status_of, tier_limit_of;
  cbn [gi_key gi_org gi_tier gi_usage].

Lemma validate_reason_first_match (c : clock) (d : db) (h : string) :
  rejection_reason (fst (validate_api_key c d h))
    = first_match (spec_guards c) (gate_input_of c d h).
Proof.
  unfold validate_api_key, gate_input_of, spec_guards.
  destruct (find_key d h) as [k|]; [unfold_gate; split_matches|]; reflexivity.
Qed.

Lemma validate_valid_first_match (c : clock) (d : db) (h : string) :
  is_valid (fst (validate_api_key c d h)) = true
    <-> first_match (spec_guards c) (gate_input_of c d h) = None.
Proof.
  unfold validate_api_key, gate_input_of, spec_guards.
  destruct (find_key d h) as [k|]; [unfold_gate; split_matches|];
    cbn; split; congruence.
Qed.

(** C1. [validate_api_key] returns, as its rejection reason, the reason of
    the first guard of the spec's ordered list (invalid_key, key_disabled,
    key_expired, organization_{status}, subscription_inactive,
    quota_exceeded) that matches the looked-up rows, and is valid exactly
    when none matches; so the reasons are mutually exclusive, and a key with
    [is_active = false] gets key_disabled whatever the rest of the store. *)
Theorem validate_first_matching_check (c : clock) (d : db) (h : string) :
  rejection_reason (fst (validate_api_key c d h))
    = first_match (spec_guards c) (gate_input_of c d h)
  /\ (is_valid (fst (validate_api_key c d h)) = true
      <-> first_match (spec_guards c) (gate_input_of c d h) = None)
  /\ (forall k, find_key d h = Some k -> is_active k = Some false ->
        fst (validate_api_key c d h)
        = mk_row (Some (ak_id k)) (Some (ak_organization_id k)) None None None None
            false (Some "key_disabled")).
Proof.
  split; [apply validate_reason_first_match|].
  split; [apply validate_valid_first_match|].
  intros k Hk Ha. unfold validate_api_key. rewrite Hk.
  unfold key_disabled_cond. rewrite Ha. reflexivity.
Qed.

(** A disabled key whose other fields would each be rejected too. *)
Lemma validate_first_matching_check_witness :
  fst (validate_api_key sample_clock
         (sample_db (sample_key None (Some false) (Some 5))
            [sample_org (Some Revoked) (Some Canceled) (Some "free")] 5000) "h")
  = mk_row (Some 7) (Some 1) None None None None false (Some "key_disabled").
Proof.
  apply (proj2 (proj2 (validate_first_matching_check sample_clock
    (sample_db (sample_key None (Some false) (Some 5))
       [sample_org (Some Revoked) (Some Canceled) (Some "free")] 5000) "h")))
    with (k := sample_key None (Some false) (Some 5)); reflexivity.
Defined.

(** ** C2: a missing organization or tier row does not fail closed *)

(** C2 (code_bug). When the key row is found, active and unexpired, and the
    organization row is missing, or the organization passes the status and
    subscription checks but its tier row is missing, [validate_api_key]
    returns a valid row (Allowed), with no monthly limit and the key's
    override (or NULL) as rate limit; it does not return invalid_key. *)
Theorem validate_missing_tier_allows (c : clock) (d : db) (h : string) (k : api_key) :
  find_key d h = Some k ->
  key_disabled_cond k = false ->
  key_expired_cond c k = false ->
  org_status_rejection (find_org d (ak_organization_id k)) = None ->
  subscription_inactive_cond (find_org d (ak_organization_id k)) = false ->
  find_tier d (org_tier_id_of (find_org d (ak_organization_id k))) = None ->
  is_valid (fst (validate_api_key c d h)) = true
  /\ rejection_reason (fst (validate_api_key c d h)) = None
  /\ monthly_limit (fst (validate_api_key c d h)) = None
  /\ rate_limit (fst (validate_api_key c d h)) = rate_limit_override k.
Proof.
  intros Hk Hd He Hs Hsub Ht.
  unfold validate_api_key. rewrite Hk, Hd, He, Hs, Hsub, Ht.
  cbn. destruct (rate_limit_override k); repeat split.
Qed.

(** The organization's [subscription_tier_id] is NULL (the column is
    nullable): the key is allowed with no quota and no rate limit. *)
Lemma validate_missing_tier_allows_witness :
  fst (validate_api_key sample_clock
         (sample_db (sample_key None (Some true) None)
            [sample_org (Some Active) (Some SubActive) None] 0) "h")
  = mk_row (Some 7) (Some 1) (Some "Acme") None None None true None
  /\ is_valid (fst (validate_api_key sample_clock
         (sample_db (sample_key None (Some true) None)
            [sample_org (Some Active) (Some SubActive) None] 0) "h")) = true.
Proof.
  split; [reflexivity|].
  apply (validate_missing_tier_allows sample_clock
           (sample_db (sample_key None (Some true) None)
              [sample_org (Some Active) (Some SubActive) None] 0) "h"
           (sample_key None (Some true) None)); reflexivity.
Defined.

(** ** C3: a blocked organization blocks every key *)

(** C3. For a key whose organization has a non-active status, or a
    subscription status outside {active, trialing}, [validate_api_key] is
    never valid; when the key itself is active and unexpired, the reason is
    ['organization_' || status] for a non-active status, and otherwise
    (status NULL or active) subscription_inactive. *)
Theorem organization_blocks_keys (c : clock) (d : db) (h : string) (k : api_key)
    (o : organization) :
  find_key d h = Some k ->
  find_org d (ak_organization_id k) = Some o ->
  (exists s, status o = Some s /\ s <> Active)
  \/ (exists ss, subscription_status o = Some ss /\ ss <> SubActive /\ ss <> Trialing) ->
  is_valid (fst (validate_api_key c d h)) = false
  /\ (is_active k = Some true ->
      (expires_at k = None \/ exists e, expires_at k = Some e /\ now c <= e) ->
      (forall s, status o = Some s -> s <> Active ->
         rejection_reason (fst (validate_api_key c d h))
         = Some (String.append "organization_" (org_status_text s)))
      /\ (status o = None \/ status o = Some Active ->
         rejection_reason (fst (validate_api_key c d h)) = Some "subscription_inactive")).
Proof.
  intros Hk Ho Hblock. unfold validate_api_key. rewrite Hk, Ho.
  unfold org_status_rejection, subscription_inactive_cond, org_status_of,
    org_subscription_status_of.
  split.
  - destruct Hblock as [[s [Hs Hne]] | [ss [Hss [H1 H2]]]].
    + rewrite Hs. destruct (key_disabled_cond k), (key_expired_cond c k); try reflexivity.
      destruct s; [congruence | reflexivity ..].
    + rewrite Hss. destruct (key_disabled_cond k), (key_expired_cond c k); try reflexivity.
      destruct (status o) as [[| | |]|], ss; cbn; congruence.
  - intros Ha Hexp. unfold key_disabled_cond, key_expired_cond. rewrite Ha.
    assert (Hne : match expires_at k with Some e => e <? now c | None => false end = false).
    { destruct Hexp as [-> | [e [-> He]]]; [reflexivity | apply Z.ltb_ge; lia]. }
    rewrite Hne. split.
    + intros s Hs Hsa. rewrite Hs. destruct s; [congruence | reflexivity ..].
    + intros Hst. destruct Hblock as [[s [Hs Hne']] | [ss [Hss [H1 H2]]]].
      * destruct Hst as [Hst | Hst]; rewrite Hst in Hs; [discriminate|].
        injection Hs as <-. congruence.
      * rewrite Hss. destruct Hst as [-> | ->]; destruct ss; cbn; congruence.
Qed.

(** A suspended organization and a past-due subscription, key otherwise fine. *)
Lemma organization_blocks_keys_witness :
  rejection_reason (fst (validate_api_key sample_clock
         (sample_db (sample_key None (Some true) (Some 2000))
            [sample_org (Some Suspended) (Some PastDue) (Some "free")] 0) "h"))
  = Some "organization_suspended".
Proof.
  destruct (organization_blocks_keys sample_clock
           (sample_db (sample_key None (Some true) (Some 2000))
              [sample_org (Some Suspended) (Some PastDue) (Some "free")] 0) "h"
           (sample_key None (Some true) (Some 2000))
           (sample_org (Some Suspended) (Some PastDue) (Some "free"))
           eq_refl eq_refl) as [_ H].
  - left. exists Suspended. split; [reflexivity | discriminate].
  - destruct H as [H _].
    + reflexivity.
    + right. exists 2000. split; [reflexivity | cbn; lia].
    + exact (H Suspended eq_refl ltac:(discriminate)).
Defined.

(** ** C4: the quota check *)

Lemma first_match_app (xs ys : list guard) (g : gate_input) :
  first_match (xs ++ ys) g
  = match first_match xs g with Some r => Some r | None => first_match ys g end.
Proof.
  induction xs as [|x xs IH]; cbn; [reflexivity|].
  destruct (x g); [reflexivity | exact IH].
Qed.

(** C4. For a key that passes the first five checks, [validate_api_key]
    rejects with quota_exceeded exactly when the tier's monthly token limit is
    set and the month's token usage ([gi_usage], the tokens of
    [get_org_monthly_usage] for the key's organization) reaches it; with no
    limit, or with usage strictly below it, the result is Allowed. *)
Theorem quota_check_decides (c : clock) (d : db) (h : string) :
  first_match (firstn 5 (spec_guards c)) (gate_input_of c d h) = None ->
  (rejection_reason (fst (validate_api_key c d h)) = Some "quota_exceeded"
   <-> exists limit, tier_limit_of (gi_tier (gate_input_of c d h)) = Some limit
                     /\ limit <= gi_usage (gate_input_of c d h))
  /\ (tier_limit_of (gi_tier (gate_input_of c d h)) = None ->
      is_valid (fst (validate_api_key c d h)) = true)
  /\ (forall limit, tier_limit_of (gi_tier (gate_input_of c d h)) = Some limit ->
      gi_usage (gate_input_of c d h) < limit ->
      is_valid (fst (validate_api_key c d h)) = true).
Proof.
  intros H5.
  setoid_rewrite (validate_valid_first_match c d h).
  rewrite (validate_reason_first_match c d h).
  assert (Hall : first_match (spec_guards c) (gate_input_of c d h)
                 = guard_quota_exceeded (gate_input_of c d h)).
  { change (spec_guards c) with (firstn 5 (spec_guards c) ++ [guard_quota_exceeded]).
    rewrite first_match_app, H5. cbn.
    destruct (guard_quota_exceeded (gate_input_of c d h)); reflexivity. }
  rewrite Hall. clear Hall H5.
  unfold guard_quota_exceeded, tier_limit_of.
  destruct (gi_tier (gate_input_of c d h)) as [t|]; [|split; [split; [discriminate | intros [l [Hl _]]; discriminate] | split; [reflexivity | discriminate]]].
  destruct (monthly_token_limit t) as [l|];
    [|split; [split; [discriminate | intros [l [Hl _]]; discriminate] | split; [reflexivity | discriminate]]].
  destruct (l <=? gi_usage (gate_input_of c d h)) eqn:Hle.
  - apply Z.leb_le in Hle. split; [split; [intros _; exists l; split; [reflexivity | exact Hle] | reflexivity]|].
    split; [discriminate|]. intros l' Hl' Hlt. injection Hl' as <-. lia.
  - apply Z.leb_gt in Hle. split.
    + split; [discriminate|]. intros [l' [Hl' Hle']]. injection Hl' as <-. lia.
    + split; [discriminate | intros; reflexivity].
Qed.

(** Scenario A and B with the free tier's limit 1000. *)
Lemma quota_check_decides_witness :
  is_valid (fst (validate_api_key sample_clock
         (sample_db (sample_key None (Some true) None)
            [sample_org (Some Active) (Some SubActive) (Some "free")] 500) "h")) = true
  /\ rejection_reason (fst (validate_api_key sample_clock
         (sample_db (sample_key None (Some true) None)
            [sample_org (Some Active) (Some SubActive) (Some "free")] 1000) "h"))
     = Some "quota_exceeded".
Proof.
  split.
  - apply (proj2 (proj2 (quota_check_decides sample_clock
             (sample_db (sample_key None (Some true) None)
                [sample_org (Some Active) (Some SubActive) (Some "free")] 500) "h"
             eq_refl)) 1000); [reflexivity | cbn; lia].
  - apply (proj1 (quota_check_decides sample_clock
             (sample_db (sample_key None (Some true) None)
                [sample_org (Some Active) (Some SubActive) (Some "free")] 1000) "h"
             eq_refl)).
    exists 1000. split; [reflexivity | cbn; lia].
Defined.

(** ** C5: the limits reported on Allowed *)

(** C5. When [validate_api_key] is valid, its rate limit is
    [COALESCE(key.rate_limit_override, tier.rate_limit_per_minute)] and its
    monthly limit is the tier's [monthly_token_limit], the tier being the one
    of the key's organization. *)
Theorem allowed_limits (c : clock) (d : db) (h : string) (k : api_key) :
  find_key d h = Some k ->
  is_valid (fst (validate_api_key c d h)) = true ->
  rate_limit (fst (validate_api_key c d h))
    = coalesce (rate_limit_override k)
        (tier_rate_of (find_tier d (org_tier_id_of (find_org d (ak_organization_id k)))))
  /\ monthly_limit (fst (validate_api_key c d h))
    = tier_limit_of (find_tier d (org_tier_id_of (find_org d (ak_organization_id k)))).
Proof.
  intros Hk. unfold validate_api_key. rewrite Hk. cbv zeta.
  split_matches; cbn; intros Hv; try discriminate; split; reflexivity.
Qed.

(** Scenario E: the override 500 wins over the starter tier's 60. *)
Lemma allowed_limits_witness :
  rate_limit (fst (validate_api_key sample_clock
         (sample_db (sample_key (Some 500) (Some true) None)
            [sample_org (Some Active) (Some SubActive) (Some "starter")] 0) "h"))
  = coalesce (Some 500) (Some 60).
Proof.
  apply (allowed_limits sample_clock
           (sample_db (sample_key (Some 500) (Some true) None)
              [sample_org (Some Active) (Some SubActive) (Some "starter")] 0) "h"
           (sample_key (Some 500) (Some true) None)); reflexivity.
Defined.

(** ** C6: the frame of [validate_api_key] *)

Lemma touch_key_hash (c : clock) (id : uuid) (k : api_key) :
  key_hash (touch_key c id k) = key_hash k.
Proof. unfold touch_key. destruct (ak_id k =? id); reflexivity. Qed.

Lemma find_key_touch (c : clock) (d : db) (id : uuid) (h : string) :
  find_key (touch_last_used c d id) h = option_map (touch_key c id) (find_key d h).
Proof.
  unfold find_key, touch_last_used. cbn [api_keys].
  induction (api_keys d) as [|k ks IH]; cbn; [reflexivity|].
  rewrite touch_key_hash. destruct (String.eqb (key_hash k) h); [reflexivity | exact IH].
Qed.

(** Setting [last_used_at] changes no later result of the gate. *)
Lemma validate_touch_invisible (c c' : clock) (d : db) (id : uuid) (h : string) :
  fst (validate_api_key c' (touch_last_used c d id) h) = fst (validate_api_key c' d h).
Proof.
  unfold validate_api_key at 1. rewrite find_key_touch.
  unfold validate_api_key.
  change (find_org (touch_last_used c d id)) with (find_org d).
  change (find_tier (touch_last_used c d id)) with (find_tier d).
  change (get_org_monthly_usage c' (touch_last_used c d id))
    with (get_org_monthly_usage c' d).
  destruct (find_key d h) as [k|]; cbn [option_map]; [|reflexivity].
  unfold touch_key. destruct (ak_id k =? id); cbv zeta; cbn [ak_id ak_organization_id
    key_hash rate_limit_override is_active expires_at];
    unfold key_disabled_cond, key_expired_cond; cbn [is_active expires_at];
    split_matches; reflexivity.
Qed.

(** The store after a call: unchanged, or stamped on the found key. *)
Lemma validate_store_shape (c : clock) (d : db) (h : string) :
  (is_valid (fst (validate_api_key c d h)) = false /\ snd (validate_api_key c d h) = d)
  \/ (exists k, find_key d h = Some k
       /\ is_valid (fst (validate_api_key c d h)) = true
       /\ snd (validate_api_key c d h) = touch_last_used c d (ak_id k)).
Proof.
  unfold validate_api_key.
  destruct (find_key d h) as [k|] eqn:Hk; [|left; split; reflexivity].
  cbv zeta. split_matches; cbn;
    solve [left; split; reflexivity | right; exists k; repeat split; assumption].
Qed.

(** C6. A rejected call leaves the store as it was. A valid call changes the
    store only by [touch_last_used]: [last_used_at := NOW()] on the found
    key's row, every other column and table unchanged; and a later call, at
    any clock, from the new store returns what it would have returned from
    the old one, so at the same clock the same Allowed row again. *)
Theorem validate_frame (c : clock) (d : db) (h : string) :
  (is_valid (fst (validate_api_key c d h)) = false -> snd (validate_api_key c d h) = d)
  /\ (is_valid (fst (validate_api_key c d h)) = true ->
      exists k, find_key d h = Some k
        /\ snd (validate_api_key c d h) = touch_last_used c d (ak_id k)
        /\ (forall c', fst (validate_api_key c' (snd (validate_api_key c d h)) h)
                       = fst (validate_api_key c' d h))
        /\ fst (validate_api_key c (snd (validate_api_key c d h)) h)
           = fst (validate_api_key c d h)).
Proof.
  pose proof (validate_store_shape c d h) as Hshape.
  destruct Hshape as [[Hv Hd] | [k [Hk [Hv Hd]]]]; split; intros Hv'.
  - exact Hd.
  - congruence.
  - congruence.
  - exists k. rewrite Hd. repeat split; [exact Hk | intros c'; apply validate_touch_invisible |].
    apply validate_touch_invisible.
Qed.

(** Scenario A: the valid call stamps the key, and repeating it gives the
    same row. *)
Lemma validate_frame_witness :
  exists k, find_key (sample_db (sample_key None (Some true) None)
              [sample_org (Some Active) (Some SubActive) (Some "free")] 500) "h" = Some k
    /\ snd (validate_api_key sample_clock (sample_db (sample_key None (Some true) None)
              [sample_org (Some Active) (Some SubActive) (Some "free")] 500) "h")
       = touch_last_used sample_clock (sample_db (sample_key None (Some true) None)
              [sample_org (Some Active) (Some SubActive) (Some "free")] 500) (ak_id k)
    /\ (forall c', fst (validate_api_key c' (snd (validate_api_key sample_clock
              (sample_db (sample_key None (Some true) None)
                 [sample_org (Some Active) (Some SubActive) (Some "free")] 500) "h")) "h")
                   = fst (validate_api_key c' (sample_db (sample_key None (Some true) None)
                 [sample_org (Some Active) (Some SubActive) (Some "free")] 500) "h"))
    /\ fst (validate_api_key sample_clock (snd (validate_api_key sample_clock
              (sample_db (sample_key None (Some true) None)
                 [sample_org (Some Active) (Some SubActive) (Some "free")] 500) "h")) "h")
       = fst (validate_api_key sample_clock (sample_db (sample_key None (Some true) None)
                 [sample_org (Some Active) (Some SubActive) (Some "free")] 500) "h").
Proof.
  apply (proj2 (validate_frame sample_clock
           (sample_db (sample_key None (Some true) None)
              [sample_org (Some Active) (Some SubActive) (Some "free")] 500) "h")).
  reflexivity.
Defined.

(** ** C7: the upsert of [increment_daily_usage] is additive *)

Lemma date_eqb_spec (a b : date) : date_eqb a b = true <-> a = b.
Proof.
  destruct a as [y m dd], b as [y' m' dd']. unfold date_eqb. cbn.
  rewrite !andb_true_iff, !Z.eqb_eq.
  split; [intros [[-> ->] ->]; reflexivity | intros H; injection H as -> -> ->; auto].
Qed.

Lemma usage_key_matches_spec (org : uuid) (dt : date) (source endpoint : string)
    (r : usage_daily_row) :
  usage_key_matches org dt source endpoint r = true
  <-> usage_key r = (org, dt, source, endpoint).
Proof.
  unfold usage_key_matches, usage_key.
  rewrite !andb_true_iff, Z.eqb_eq, date_eqb_spec, !String.eqb_eq.
  split; [intros [[[-> ->] ->] ->]; reflexivity | intros H; injection H as -> -> -> ->; auto].
Qed.

Lemma int4_in_range (z : Z) : int4_range z -> int4 z = Some z.
Proof.
  unfold int4, int4_range. intros [H1 H2].
  apply Z.leb_le in H1. apply Z.leb_le in H2. rewrite H1, H2. reflexivity.
Qed.

Lemma int4_above (z : Z) : int_max < z -> int4 z = None.
Proof.
  intros H. unfold int4.
  replace (z <=? int_max) with false by (symmetry; apply Z.leb_gt; exact H).
  rewrite andb_false_r. reflexivity.
Qed.

Lemma int4_arg_range (z : Z) : int4_range z -> int4_arg (Some z) = true.
Proof.
  unfold int4_arg, int4_range. intros [H1 H2].
  apply Z.leb_le in H1. apply Z.leb_le in H2. rewrite H1, H2. reflexivity.
Qed.

Lemma to_varchar_fits (n : nat) (s : string) :
  (String.length s <= n)%nat -> to_varchar n s = Some s.
Proof. intros H. unfold to_varchar. apply Nat.leb_le in H. rewrite H. reflexivity. Qed.

(** A non-NULL delta on a counter whose sum stays in range. *)
Lemma add_counter_in_range (v : option Z) (p : Z) :
  counter_in_range (option_map (fun x => x + p) v)
  -> add_counter v (Some p) = Some (option_map (fun x => x + p) v).
Proof.
  destruct v as [x|]; cbn; intros H; [rewrite (int4_in_range _ H)|]; reflexivity.
Qed.

(** With non-NULL key arguments of allowed lengths and INTEGER deltas, the
    call is the upsert itself. *)
Lemma increment_fitting (d : db) (org : uuid) (dt : date) (source endpoint : string)
    (pr pt : option Z) :
  (String.length source <= 20)%nat -> (String.length endpoint <= 100)%nat ->
  int4_arg pr = true -> int4_arg pt = true ->
  increment_daily_usage d (Some org) (Some dt) (Some source) (Some endpoint) pr pt
  = if existsb (usage_key_matches org dt source endpoint) (usage_daily d) then
      option_map (with_usage_daily d)
        (bump_rows (usage_key_matches org dt source endpoint) pr pt (usage_daily d))
    else if org_exists d org then
      Some (with_usage_daily d (usage_daily d ++ [mk_usage org dt source endpoint pr pt]))
    else None.
Proof.
  intros Hs He Hpr Hpt. unfold increment_daily_usage.
  rewrite Hpr, Hpt, (to_varchar_fits 20 source Hs), (to_varchar_fits 100 endpoint He).
  reflexivity.
Qed.

Section Upsert.
Variables (org : uuid) (dt : date) (source endpoint : string) (p_requests p_tokens : Z).
Let m := usage_key_matches org dt source endpoint.

Lemma matches_bump (r : usage_daily_row) : m (bump m p_requests p_tokens r) = m r.
Proof. unfold bump. destruct (m r) eqn:H; exact H. Qed.

Lemma usage_key_bump (r : usage_daily_row) :
  usage_key (bump m p_requests p_tokens r) = usage_key r.
Proof. unfold bump. destruct (m r); reflexivity. Qed.

(** With the key UNIQUE, a matching row is the one [find] returns. *)
Lemma find_unique_row (rows : list usage_daily_row) (r : usage_daily_row) :
  NoDup (map usage_key rows) -> In r rows -> m r = true -> find m rows = Some r.
Proof.
  induction rows as [|x xs IH]; cbn; intros Hnd Hin Hr; [contradiction|].
  inversion Hnd as [|? ? Hnotin Hnd']; subst.
  destruct (m x) eqn:Hx.
  - destruct Hin as [-> | Hin]; [reflexivity|]. exfalso. apply Hnotin.
    unfold m in Hx, Hr. apply usage_key_matches_spec in Hx, Hr.
    rewrite Hx, <- Hr. apply in_map. exact Hin.
  - destruct Hin as [-> | Hin]; [congruence | auto].
Qed.

Lemma bump_rows_map (rows : list usage_daily_row) :
  Forall (fun r => m r = true ->
            add_counter (request_count r) (Some p_requests)
            = Some (option_map (fun x => x + p_requests) (request_count r))
            /\ add_counter (tokens_used r) (Some p_tokens)
               = Some (option_map (fun x => x + p_tokens) (tokens_used r))) rows ->
  bump_rows m (Some p_requests) (Some p_tokens) rows
  = Some (map (bump m p_requests p_tokens) rows).
Proof.
  induction rows as [|r rs IH]; cbn; intros Hf; [reflexivity|].
  inversion Hf as [|? ? Hr Hrs]; subst. unfold bump at 1.
  destruct (m r) eqn:Hm.
  - destruct (Hr eq_refl) as [-> ->]. rewrite (IH Hrs). reflexivity.
  - rewrite (IH Hrs). reflexivity.
Qed.

Lemma find_map_bump (rows : list usage_daily_row) :
  find m (map (bump m p_requests p_tokens) rows)
  = option_map (bump m p_requests p_tokens) (find m rows).
Proof.
  induction rows as [|r rs IH]; cbn; [reflexivity|].
  rewrite matches_bump. destruct (m r); [reflexivity | exact IH].
Qed.

Lemma filter_others_bump (rows : list usage_daily_row) :
  filter (fun r => negb (m r)) (map (bump m p_requests p_tokens) rows)
  = filter (fun r => negb (m r)) rows.
Proof.
  induction rows as [|r rs IH]; cbn; [reflexivity|].
  rewrite matches_bump. destruct (m r) eqn:Hm; cbn; [exact IH|].
  unfold bump. rewrite Hm. f_equal. exact IH.
Qed.

Lemma map_key_bump (rows : list usage_daily_row) :
  map usage_key (map (bump m p_requests p_tokens) rows) = map usage_key rows.
Proof.
  induction rows as [|r rs IH]; cbn; [reflexivity|]. rewrite usage_key_bump, IH.
  reflexivity.
Qed.

Lemma find_none_existsb (rows : list usage_daily_row) :
  existsb m rows = false -> find m rows = None.
Proof.
  induction rows as [|r rs IH]; cbn; [reflexivity|].
  destruct (m r); [discriminate | exact IH].
Qed.

Lemma find_snoc (rows : list usage_daily_row) (x : usage_daily_row) :
  find m rows = None -> m x = true -> find m (rows ++ [x]) = Some x.
Proof.
  induction rows as [|r rs IH]; cbn; [intros _ -> ; reflexivity|].
  destruct (m r); [discriminate | exact IH].
Qed.
End Upsert.

(** One matching row whose sum fails makes the whole update fail. *)
Lemma bump_rows_fails (m : usage_daily_row -> bool) (pr pt : option Z)
    (rows : list usage_daily_row) (r : usage_daily_row) :
  In r rows -> m r = true ->
  add_counter (request_count r) pr = None \/ add_counter (tokens_used r) pt = None ->
  bump_rows m pr pt rows = None.
Proof.
  induction rows as [|x xs IH]; cbn; intros Hin Hm Hfail; [contradiction|].
  destruct Hin as [-> | Hin].
  - rewrite Hm. destruct Hfail as [H | H]; rewrite H; [reflexivity|].
    destruct (add_counter (request_count r) pr); reflexivity.
  - rewrite (IH Hin Hm Hfail).
    destruct (m x); [|reflexivity].
    destruct (add_counter (request_count x) pr), (add_counter (tokens_used x) pt);
      reflexivity.
Qed.

Lemma find_some_in (m : usage_daily_row -> bool) (rows : list usage_daily_row)
    (r : usage_daily_row) :
  find m rows = Some r -> In r rows /\ m r = true.
Proof.
  induction rows as [|x xs IH]; cbn; [discriminate|].
  destruct (m x) eqn:Hx.
  - intros H. injection H as <-. auto.
  - intros H. destruct (IH H). auto.
Qed.

Lemma NoDup_snoc {A : Type} (l : list A) (x : A) :
  NoDup l -> ~ In x l -> NoDup (l ++ [x]).
Proof.
  induction l as [|a l IH]; cbn; intros Hnd Hx.
  - constructor; [intros [] | constructor].
  - inversion Hnd as [|? ? Ha Hl]; subst. constructor.
    + intros Hin. apply in_app_or in Hin as [Hin | [<- | []]]; [exact (Ha Hin) | ].
      apply Hx. left. reflexivity.
    + apply IH; [exact Hl | intros Hin; apply Hx; right; exact Hin].
Qed.

Lemma usage_daily_with (d : db) (rows : list usage_daily_row) :
  usage_daily (with_usage_daily d rows) = rows.
Proof. reflexivity. Qed.

(** One call with in-range deltas, from a store satisfying the table's
    constraints, for an existing organization, allowed lengths and a row (if
    any) with both counters set: it succeeds, adds the deltas to the key's
    row (created from (0, 0) when absent), keeps the constraints and changes
    no other row. *)
Lemma increment_step (d : db) (org : uuid) (dt : date) (source endpoint : string)
    (pr pt : Z) :
  usage_wf d -> org_exists d org = true ->
  (String.length source <= 20)%nat -> (String.length endpoint <= 100)%nat ->
  counters_set d org dt source endpoint ->
  0 <= pr <= int_max -> 0 <= pt <= int_max ->
  fst (counters_or_zero d org dt source endpoint) + pr <= int_max ->
  snd (counters_or_zero d org dt source endpoint) + pt <= int_max ->
  exists d', increment_daily_usage d (Some org) (Some dt) (Some source) (Some endpoint)
               (Some pr) (Some pt) = Some d'
    /\ usage_wf d'
    /\ usage_counters d' org dt source endpoint
       = Some (Some (fst (counters_or_zero d org dt source endpoint) + pr),
               Some (snd (counters_or_zero d org dt source endpoint) + pt))
    /\ filter (fun r => negb (usage_key_matches org dt source endpoint r)) (usage_daily d')
       = filter (fun r => negb (usage_key_matches org dt source endpoint r)) (usage_daily d)
    /\ api_keys d' = api_keys d /\ organizations d' = organizations d
    /\ subscription_tiers d' = subscription_tiers d.
Proof.
  intros [Hnd Hrange] Horg Hs He Hcs Hpr Hpt Ha Hb.
  rewrite increment_fitting by
    (assumption || (apply int4_arg_range; unfold int4_range, int_min, int_max in *; lia)).
  unfold counters_set, counters_or_zero, usage_counters in Hcs, Ha, Hb |- *.
  destruct (existsb (usage_key_matches org dt source endpoint) (usage_daily d)) eqn:Hex.
  - apply existsb_exists in Hex as [r [Hin Hr]].
    pose proof (find_unique_row org dt source endpoint _ _ Hnd Hin Hr) as Hfind.
    rewrite Hfind in Hcs, Ha, Hb |- *. cbn [option_map fst snd] in Hcs, Ha, Hb |- *.
    destruct (request_count r) as [a|] eqn:Hra; [|destruct Hcs; congruence].
    destruct (tokens_used r) as [b|] eqn:Htb; [|destruct Hcs; congruence].
    cbn [sum_value] in Ha, Hb |- *.
    pose proof (proj1 (Forall_forall _ _) Hrange r Hin) as Hr_range.
    cbv beta in Hr_range. rewrite Hra, Htb in Hr_range. destruct Hr_range as [[Ha1 Ha2] [Hb1 Hb2]].
    assert (Hok : Forall (fun x => usage_key_matches org dt source endpoint x = true ->
              add_counter (request_count x) (Some pr)
              = Some (option_map (fun z => z + pr) (request_count x))
              /\ add_counter (tokens_used x) (Some pt)
                 = Some (option_map (fun z => z + pt) (tokens_used x))) (usage_daily d)).
    { apply Forall_forall. intros x Hx Hmx.
      rewrite (find_unique_row org dt source endpoint _ _ Hnd Hx Hmx) in Hfind.
      injection Hfind as ->.
      split; apply add_counter_in_range; rewrite ?Hra, ?Htb; cbn;
        unfold int4_range, int_min, int_max in *; lia. }
    rewrite (bump_rows_map org dt source endpoint pr pt _ Hok). cbn [option_map].
    exists (with_usage_daily d
              (map (bump (usage_key_matches org dt source endpoint) pr pt) (usage_daily d))).
    split; [reflexivity|]. unfold usage_wf. rewrite !usage_daily_with.
    split; [split|].
    + rewrite map_key_bump. exact Hnd.
    + apply Forall_forall. intros x Hx. apply in_map_iff in Hx as [y [<- Hy]].
      unfold bump. destruct (usage_key_matches org dt source endpoint y) eqn:Hmy.
      * rewrite (find_unique_row org dt source endpoint _ _ Hnd Hy Hmy) in Hfind.
        injection Hfind as ->. cbn [request_count tokens_used]. rewrite Hra, Htb.
        cbn. unfold int4_range, int_min, int_max in *; lia.
      * exact (proj1 (Forall_forall _ _) Hrange y Hy).
    + rewrite find_map_bump, Hfind. cbn [option_map]. unfold bump. rewrite Hr.
      cbn [request_count tokens_used]. rewrite Hra, Htb.
      split; [reflexivity|]. split; [apply filter_others_bump|].
      repeat split.
  - pose proof (find_none_existsb org dt source endpoint _ Hex) as Hfind.
    rewrite Hfind in Ha, Hb |- *. cbn [fst snd] in Ha, Hb |- *. rewrite Horg.
    exists (with_usage_daily d
              (usage_daily d ++ [mk_usage org dt source endpoint (Some pr) (Some pt)])).
    split; [reflexivity|]. unfold usage_wf. rewrite !usage_daily_with.
    assert (Hnew : usage_key_matches org dt source endpoint
                     (mk_usage org dt source endpoint (Some pr) (Some pt)) = true)
      by (apply usage_key_matches_spec; reflexivity).
    split; [split|].
    + rewrite map_app. apply NoDup_snoc; [exact Hnd|].
      intros Hin. apply in_map_iff in Hin as [y [Hy Hin]].
      assert (Hmy : usage_key_matches org dt source endpoint y = true)
        by (apply usage_key_matches_spec; exact Hy).
      assert (Hyes : existsb (usage_key_matches org dt source endpoint) (usage_daily d) = true)
        by (apply existsb_exists; exists y; split; assumption).
      congruence.
    + apply Forall_app. split; [exact Hrange|].
      constructor; [|constructor]. cbn. unfold int4_range, int_min, int_max in *; lia.
    + rewrite find_snoc by assumption. cbn [option_map request_count tokens_used].
      split; [f_equal; f_equal; f_equal; lia|].
      rewrite filter_app. cbn. rewrite Hnew. cbn. rewrite app_nil_r.
      repeat split.
Qed.

(** A day row whose counters are at the INTEGER maximum, of an existing
    organization. *)
Definition full_row_db : db :=
  mk_db [] [sample_org (Some Active) (Some SubActive) (Some "free")] seeded_tiers
    [mk_usage 1 (mk_date 2024 12 3) "api" "/lookup" (Some int_max) (Some int_max)].

(** C7 (counterexample). "From any state, N calls with deltas 1 leave the
    counters exactly N larger" fails, even for an existing organization,
    short source and endpoint and counters set: from a row at 2147483647 one
    call raises "integer out of range" and the counters stay where they
    were. *)
Lemma record_usage_additive_counterexample :
  ~ (forall (N : nat) (d : db) (org : uuid) (dt : date) (source endpoint : string),
       usage_wf d -> org_exists d org = true ->
       (String.length source <= 20)%nat -> (String.length endpoint <= 100)%nat ->
       counters_set d org dt source endpoint ->
       counters_or_zero (record_usage_n N d org dt source endpoint) org dt source endpoint
       = (fst (counters_or_zero d org dt source endpoint) + Z.of_nat N,
          snd (counters_or_zero d org dt source endpoint) + Z.of_nat N)).
Proof.
  intros H.
  assert (Hwf : usage_wf full_row_db).
  { split.
    - constructor; [intros [] | constructor].
    - constructor; [|constructor]. cbn. unfold int4_range, int_min, int_max; lia. }
  assert (Hcs : counters_set full_row_db 1 (mk_date 2024 12 3) "api" "/lookup")
    by (vm_compute; split; discriminate).
  specialize (H 1%nat full_row_db 1 (mk_date 2024 12 3) "api" "/lookup" Hwf eq_refl).
  assert (Hs : (String.length "api" <= 20)%nat) by (cbn; lia).
  assert (He : (String.length "/lookup" <= 100)%nat) by (cbn; lia).
  specialize (H Hs He Hcs).
  vm_compute in H. discriminate H.
Qed.

(** C7 (amended). From a store satisfying the table's constraints, for an
    existing organization, a source of at most 20 and an endpoint of at most
    100 characters, and a row (if any) whose counters are set:
    - [N] calls for the composite key with deltas 1, as long as the counters
      stay within the INTEGER range ([old + N <= 2147483647]), leave that
      key's counters exactly [N] larger (an absent row counting as (0, 0)),
      keep one row per composite key, and change no other row and no other
      table;
    - a call that would take a counter past 2147483647 raises, and the store
      is left as it was. *)
Theorem record_usage_n_additive (N : nat) (d : db) (org : uuid) (dt : date)
    (source endpoint : string) :
  usage_wf d -> org_exists d org = true ->
  (String.length source <= 20)%nat -> (String.length endpoint <= 100)%nat ->
  counters_set d org dt source endpoint ->
  (fst (counters_or_zero d org dt source endpoint) + Z.of_nat N <= int_max ->
   snd (counters_or_zero d org dt source endpoint) + Z.of_nat N <= int_max ->
   counters_or_zero (record_usage_n N d org dt source endpoint) org dt source endpoint
     = (fst (counters_or_zero d org dt source endpoint) + Z.of_nat N,
        snd (counters_or_zero d org dt source endpoint) + Z.of_nat N)
   /\ ((0 < N)%nat ->
       usage_counters (record_usage_n N d org dt source endpoint) org dt source endpoint
       = Some (Some (fst (counters_or_zero (record_usage_n N d org dt source endpoint)
                           org dt source endpoint)),
               Some (snd (counters_or_zero (record_usage_n N d org dt source endpoint)
                           org dt source endpoint))))
   /\ usage_wf (record_usage_n N d org dt source endpoint)
   /\ filter (fun r => negb (usage_key_matches org dt source endpoint r))
        (usage_daily (record_usage_n N d org dt source endpoint))
      = filter (fun r => negb (usage_key_matches org dt source endpoint r)) (usage_daily d)
   /\ api_keys (record_usage_n N d org dt source endpoint) = api_keys d
   /\ organizations (record_usage_n N d org dt source endpoint) = organizations d
   /\ subscription_tiers (record_usage_n N d org dt source endpoint) = subscription_tiers d)
  /\ (int_max < fst (counters_or_zero d org dt source endpoint) + 1
      \/ int_max < snd (counters_or_zero d org dt source endpoint) + 1 ->
      increment_daily_usage d (Some org) (Some dt) (Some source) (Some endpoint)
        (Some 1) (Some 1) = None
      /\ record_usage d org dt source endpoint 1 1 = d).
Proof.
  intros Hwf Horg Hs He Hcs. split.
  - revert d Hwf Horg Hcs. induction N as [|N IH]; intros d Hwf Horg Hcs Ha Hb.
    + cbn. rewrite !Z.add_0_r. destruct (counters_or_zero d org dt source endpoint).
      split; [reflexivity|]. split; [intros Hlt; inversion Hlt|].
      split; [exact Hwf|]. repeat split.
    + rewrite Nat2Z.inj_succ in Ha, Hb.
      destruct (increment_step d org dt source endpoint 1 1 Hwf Horg Hs He Hcs)
        as [d1 [Hd1 [Hwf1 [Hc1 [Hf1 [Hk1 [Ho1 Ht1]]]]]]];
        try (unfold int_max in *; lia).
      cbn [record_usage_n]. unfold record_usage.
      rewrite Hd1.
      assert (Hz1 : counters_or_zero d1 org dt source endpoint
                    = (fst (counters_or_zero d org dt source endpoint) + 1,
                       snd (counters_or_zero d org dt source endpoint) + 1))
        by (unfold counters_or_zero at 1; rewrite Hc1; reflexivity).
      assert (Horg1 : org_exists d1 org = true)
        by (unfold org_exists; rewrite Ho1; exact Horg).
      assert (Hcs1 : counters_set d1 org dt source endpoint)
        by (unfold counters_set; rewrite Hc1; split; discriminate).
      destruct (IH d1 Hwf1 Horg1 Hcs1) as [Hc [Hex [Hwf' [Hf [Hk [Ho Ht]]]]]];
        try (rewrite Hz1; cbn [fst snd]; lia).
      rewrite Hz1 in Hc. cbn [fst snd] in Hc.
      split; [rewrite Hc, Nat2Z.inj_succ; f_equal; lia|].
      split.
      * intros _. destruct N as [|N'].
        -- cbn. rewrite Hz1, Hc1. reflexivity.
        -- apply Hex. lia.
      * split; [exact Hwf'|]. rewrite Hf, Hf1, Hk, Hk1, Ho, Ho1, Ht, Ht1. repeat split.
  - intros Hover.
    assert (Hinc : increment_daily_usage d (Some org) (Some dt) (Some source) (Some endpoint)
                     (Some 1) (Some 1) = None).
    { rewrite increment_fitting by (assumption || reflexivity).
      unfold counters_set, counters_or_zero, usage_counters in Hcs, Hover.
      destruct (find (usage_key_matches org dt source endpoint) (usage_daily d))
        as [r|] eqn:Hfind;
        [|cbn in Hover; unfold int_max in Hover; lia].
      apply find_some_in in Hfind as [Hin Hr].
      cbn [option_map] in Hcs, Hover.
      destruct (request_count r) as [a|] eqn:Hra; [|destruct Hcs; congruence].
      destruct (tokens_used r) as [b|] eqn:Htb; [|destruct Hcs; congruence].
      cbn [fst snd sum_value] in Hover.
      replace (existsb (usage_key_matches org dt source endpoint) (usage_daily d))
        with true by (symmetry; apply existsb_exists; exists r; split; assumption).
      rewrite (bump_rows_fails _ _ _ _ r Hin Hr); [reflexivity|].
      rewrite Hra, Htb. cbn [add_counter].
      destruct Hover as [Hover | Hover]; [left | right];
        rewrite (int4_above _ Hover); reflexivity. }
    split; [exact Hinc|]. unfold record_usage. rewrite Hinc. reflexivity.
Qed.

(** Three calls on scenario A's day row. *)
Lemma record_usage_n_additive_witness :
  counters_or_zero
    (record_usage_n 3
       (sample_db (sample_key None (Some true) None)
          [sample_org (Some Active) (Some SubActive) (Some "free")] 500)
       1 (mk_date 2024 12 3) "api" "/lookup")
    1 (mk_date 2024 12 3) "api" "/lookup" = (503, 503).
Proof.
  destruct (record_usage_n_additive 3
              (sample_db (sample_key None (Some true) None)
                 [sample_org (Some Active) (Some SubActive) (Some "free")] 500)
              1 (mk_date 2024 12 3) "api" "/lookup") as [H _].
  - split.
    + constructor; [intros [] | constructor].
    + constructor; [|constructor]. cbn. unfold int4_range, int_min, int_max; lia.
  - reflexivity.
  - cbn. lia.
  - cbn. lia.
  - vm_compute. split; discriminate.
  - destruct H as [H _]; [vm_compute; discriminate | vm_compute; discriminate |].
    rewrite H. reflexivity.
Defined.

(** ** C8: [get_org_monthly_usage] *)

Lemma date_le_spec (a b : date) : date_le a b = true <-> date_on_or_after b a.
Proof.
  unfold date_le, date_on_or_after.
  rewrite orb_true_iff, andb_true_iff, orb_true_iff, andb_true_iff,
    Z.ltb_lt, Z.eqb_eq, Z.ltb_lt, Z.eqb_eq, Z.leb_le.
  lia.
Qed.

(** C8. [get_org_monthly_usage] returns the sums of the [request_count] and
    of the [tokens_used] values (NULL values left out, as [SUM] does) over
    exactly the rows of the organization dated on or after the first day of
    the current month, and (0, 0) when there is none. *)
Theorem monthly_usage_sums (c : clock) (d : db) (org : uuid) :
  get_org_monthly_usage c d org
    = (sum_Z (non_null (map request_count (filter (in_current_month_of c org) (usage_daily d)))),
       sum_Z (non_null (map tokens_used (filter (in_current_month_of c org) (usage_daily d)))))
  /\ (forall r, In r (filter (in_current_month_of c org) (usage_daily d))
        <-> In r (usage_daily d) /\ ud_organization_id r = org
            /\ date_on_or_after (ud_date r) (first_day_of_month (current_date c)))
  /\ (filter (in_current_month_of c org) (usage_daily d) = [] ->
      get_org_monthly_usage c d org = (0, 0)).
Proof.
  assert (Hsum : get_org_monthly_usage c d org
    = (sum_Z (non_null (map request_count (filter (in_current_month_of c org) (usage_daily d)))),
       sum_Z (non_null (map tokens_used (filter (in_current_month_of c org) (usage_daily d)))))).
  { unfold get_org_monthly_usage.
    induction (usage_daily d) as [|r rs IH]; cbn; [reflexivity|].
    destruct (in_current_month_of c org r); cbn; rewrite IH; [|reflexivity].
    destruct (request_count r), (tokens_used r); reflexivity. }
  split; [exact Hsum|]. split.
  - intros r. rewrite filter_In. unfold in_current_month_of.
    rewrite andb_true_iff, Z.eqb_eq, date_le_spec. reflexivity.
  - intros Hnil. rewrite Hsum, Hnil. reflexivity.
Qed.

(** ** C9: counters and [last_used_at] only go forward *)

Lemma int4_some (z z' : Z) : int4 z = Some z' -> z' = z.
Proof. unfold int4. destruct (_ && _); congruence. Qed.

Lemma Forall2_in_left {A B : Type} (R : A -> B -> Prop) (l : list A) (l' : list B) (x : A) :
  Forall2 R l l' -> In x l -> exists y, In y l' /\ R x y.
Proof.
  induction 1 as [|a b l l' Hab _ IH]; cbn; [contradiction|].
  intros [<- | Hin]; [exists b; auto|].
  destruct (IH Hin) as [y [Hy Hr]]. exists y; auto.
Qed.

Lemma add_counter_grows (v v' : option Z) (p : Z) :
  0 <= p -> add_counter v (Some p) = Some v' -> counter_le v v'.
Proof.
  intros Hp. destruct v as [x|]; cbn.
  - destruct (int4 (x + p)) as [y|] eqn:Hy; cbn; [|discriminate].
    intros H. injection H as <-. apply int4_some in Hy. cbn. lia.
  - intros H. injection H as <-. exact I.
Qed.

Lemma counter_le_refl (v : option Z) : counter_le v v.
Proof. destruct v; cbn; [lia | exact I]. Qed.

Lemma bump_rows_grows (m : usage_daily_row -> bool) (pr pt : Z)
    (rows rows' : list usage_daily_row) :
  0 <= pr -> 0 <= pt -> bump_rows m (Some pr) (Some pt) rows = Some rows' ->
  Forall2 (fun r r' => usage_key r' = usage_key r
                       /\ counter_le (request_count r) (request_count r')
                       /\ counter_le (tokens_used r) (tokens_used r')) rows rows'.
Proof.
  intros Hpr Hpt. revert rows'.
  induction rows as [|r rs IH]; cbn; intros rows' H.
  - injection H as <-. constructor.
  - destruct (m r).
    + destruct (add_counter (request_count r) (Some pr)) as [a|] eqn:H1;
        destruct (add_counter (tokens_used r) (Some pt)) as [b|] eqn:H2;
        destruct (bump_rows m (Some pr) (Some pt) rs) as [rs'|] eqn:H3; try discriminate.
      injection H as <-.
      constructor; [|apply IH; reflexivity].
      split; [reflexivity|].
      split; [exact (add_counter_grows _ _ _ Hpr H1) | exact (add_counter_grows _ _ _ Hpt H2)].
    + destruct (bump_rows m (Some pr) (Some pt) rs) as [rs'|] eqn:H3; cbn in H;
        try discriminate.
      injection H as <-. constructor; [|apply IH; reflexivity].
      split; [reflexivity | split; apply counter_le_refl].
Qed.

Lemma usage_grows_refl (rows : list usage_daily_row) : usage_grows rows rows.
Proof. intros r Hr. exists r. repeat split; auto; apply counter_le_refl. Qed.

(** A successful call either runs the update on the existing rows or appends
    a row; the other tables are as they were. *)
Lemma increment_daily_usage_cases (d d' : db) (org : option uuid) (dt : option date)
    (source endpoint : option string) (pr pt : option Z) :
  increment_daily_usage d org dt source endpoint pr pt = Some d' ->
  api_keys d' = api_keys d /\ organizations d' = organizations d
  /\ subscription_tiers d' = subscription_tiers d
  /\ ((exists m, bump_rows m pr pt (usage_daily d) = Some (usage_daily d'))
      \/ exists r, usage_daily d' = usage_daily d ++ [r]).
Proof.
  unfold increment_daily_usage.
  destruct (negb _); [discriminate|].
  destruct org as [o|], dt as [t|], source as [s|], endpoint as [e|]; try discriminate.
  destruct (to_varchar 20 s) as [s'|], (to_varchar 100 e) as [e'|]; try discriminate.
  destruct (existsb _ (usage_daily d)).
  - destruct (bump_rows _ pr pt (usage_daily d)) as [rows'|] eqn:Hb; cbn; [|discriminate].
    intros H. injection H as <-. cbn. repeat split. left. eexists. exact Hb.
  - destruct (org_exists d o); [|discriminate].
    intros H. injection H as <-. cbn. repeat split. right. eexists. reflexivity.
Qed.

Lemma record_usage_grows (d : db) (org : uuid) (dt : date) (source endpoint : string)
    (pr pt : Z) :
  0 <= pr -> 0 <= pt ->
  usage_grows (usage_daily d) (usage_daily (record_usage d org dt source endpoint pr pt))
  /\ api_keys (record_usage d org dt source endpoint pr pt) = api_keys d.
Proof.
  intros Hpr Hpt. unfold record_usage.
  destruct (increment_daily_usage d (Some org) (Some dt) (Some source) (Some endpoint)
              (Some pr) (Some pt)) as [d'|] eqn:Hi;
    [|split; [apply usage_grows_refl | reflexivity]].
  destruct (increment_daily_usage_cases _ _ _ _ _ _ _ _ Hi)
    as [Hk [_ [_ [[m Hb] | [r0 Hr0]]]]]; split; try exact Hk.
  - intros r Hr.
    destruct (Forall2_in_left _ _ _ r (bump_rows_grows _ _ _ _ _ Hpr Hpt Hb) Hr)
      as [r' [Hin [Hkey [H1 H2]]]].
    exists r'. auto.
  - intros r Hr. exists r. rewrite Hr0.
    split; [apply in_or_app; left; exact Hr | repeat split; apply counter_le_refl].
Qed.

Lemma keys_advance_refl (c' : clock) (ks : list api_key) : keys_advance c' ks ks.
Proof.
  induction ks as [|k ks IH]; constructor; [|exact IH].
  split; [destruct k; reflexivity|].
  split; [destruct (last_used_at k); cbn; [lia | exact I] | left; reflexivity].
Qed.

Lemma keys_advance_touch (c c' : clock) (id : uuid) (ks : list api_key) :
  now c <= now c' ->
  Forall (fun k => match last_used_at k with Some t => t <= now c | None => True end) ks ->
  keys_advance c' ks (map (touch_key c' id) ks).
Proof.
  intros Hle. induction ks as [|k ks IH]; intros Hf; cbn; constructor;
    inversion Hf as [|? ? Hk Hks]; subst; [|exact (IH Hks)].
  unfold touch_key. destruct (ak_id k =? id).
  - split; [reflexivity|]. split; [|right; reflexivity].
    destruct (last_used_at k); cbn in *; [lia | exact I].
  - split; [destruct k; reflexivity|].
    split; [destruct (last_used_at k); cbn; [lia | exact I] | left; reflexivity].
Qed.

Lemma not_future_later (c c' : clock) (ks : list api_key) :
  now c <= now c' ->
  Forall (fun k => match last_used_at k with Some t => t <= now c | None => True end) ks ->
  Forall (fun k => match last_used_at k with Some t => t <= now c' | None => True end) ks.
Proof.
  intros Hle. apply Forall_impl. intros k. destruct (last_used_at k); [lia | trivial].
Qed.

(** C9. Every step of the core (a validation at a clock that does not go
    back, a usage record with non-negative deltas, a monthly-usage query)
    from a state where no key was used in the future: keeps that invariant;
    changes each key at most by setting [last_used_at] to the current time,
    which never moves it back; and keeps every day row with counters no
    smaller. *)
Theorem core_step_monotone (s s' : sys) :
  last_used_not_future s -> core_step s s' ->
  last_used_not_future s'
  /\ keys_advance (sys_clock s') (api_keys (sys_db s)) (api_keys (sys_db s'))
  /\ usage_grows (usage_daily (sys_db s)) (usage_daily (sys_db s')).
Proof.
  intros Hinv Hstep. unfold last_used_not_future in *.
  destruct Hstep as [d c c' h Hle | d c org dt source endpoint pr pt Hpr Hpt
                    | d c c' org Hle];
    cbn [sys_db sys_clock] in *.
  - destruct (validate_store_shape c' d h) as [[_ Hd] | [k [_ [_ Hd]]]]; rewrite Hd.
    + split; [exact (not_future_later c c' _ Hle Hinv)|].
      split; [apply keys_advance_refl | apply usage_grows_refl].
    + unfold touch_last_used. cbn [api_keys usage_daily].
      split; [|split; [exact (keys_advance_touch c c' _ _ Hle Hinv) | apply usage_grows_refl]].
      apply Forall_forall. intros k' Hk'. apply in_map_iff in Hk' as [k0 [<- Hk0]].
      unfold touch_key. destruct (ak_id k0 =? ak_id k); cbn; [lia|].
      pose proof (proj1 (Forall_forall _ _) Hinv k0 Hk0) as H0. cbn in H0.
      destruct (last_used_at k0); [lia | exact I].
  - destruct (record_usage_grows d org dt source endpoint pr pt Hpr Hpt) as [Hg Hk].
    rewrite Hk. split; [exact Hinv | split; [apply keys_advance_refl | exact Hg]].
  - split; [exact (not_future_later c c' _ Hle Hinv)|].
    split; [apply keys_advance_refl | apply usage_grows_refl].
Qed.

(** An organization with no row this month. *)
Lemma monthly_usage_sums_witness :
  get_org_monthly_usage sample_clock
    (mk_db [] [] [] [usage_row (mk_date 2024 11 30) 5; mk_usage 2 (mk_date 2024 12 2) "api" "/x" (Some 11) (Some 11)]) 1
  = (0, 0).
Proof.
  apply (proj2 (proj2 (monthly_usage_sums sample_clock
    (mk_db [] [] [] [usage_row (mk_date 2024 11 30) 5; mk_usage 2 (mk_date 2024 12 2) "api" "/x" (Some 11) (Some 11)]) 1))).
  reflexivity.
Defined.

(** Scenario A's key validated at a later clock. *)
Lemma core_step_monotone_witness :
  last_used_not_future
    (mk_sys (snd (validate_api_key later_clock (sample_db (sample_key None (Some true) None)
                    [sample_org (Some Active) (Some SubActive) (Some "free")] 500) "h"))
            later_clock)
  /\ keys_advance later_clock
       (api_keys (sample_db (sample_key None (Some true) None)
                    [sample_org (Some Active) (Some SubActive) (Some "free")] 500))
       (api_keys (snd (validate_api_key later_clock (sample_db (sample_key None (Some true) None)
                    [sample_org (Some Active) (Some SubActive) (Some "free")] 500) "h")))
  /\ usage_grows
       (usage_daily (sample_db (sample_key None (Some true) None)
                    [sample_org (Some Active) (Some SubActive) (Some "free")] 500))
       (usage_daily (snd (validate_api_key later_clock (sample_db (sample_key None (Some true) None)
                    [sample_org (Some Active) (Some SubActive) (Some "free")] 500) "h"))).
Proof.
  apply (core_step_monotone
           (mk_sys (sample_db (sample_key None (Some true) None)
                      [sample_org (Some Active) (Some SubActive) (Some "free")] 500) sample_clock)).
  - unfold last_used_not_future. cbn. repeat constructor.
  - apply step_validate. cbn. lia.
Defined.

(** ** C10: a NULL organization status passes the status check *)

Lemma find_org_activate (d : db) (id : uuid) (o : organization) :
  find_org d id = Some o ->
  find_org (with_org_active d id) id = Some (activate_org id o).
Proof.
  unfold find_org, with_org_active. cbn [organizations].
  induction (organizations d) as [|x xs IH]; cbn; [discriminate|].
  assert (Hid : o_id (activate_org id x) = o_id x)
    by (unfold activate_org; destruct (o_id x =? id); reflexivity).
  rewrite Hid. destruct (o_id x =? id) eqn:Hx; [intros H; injection H as <-; reflexivity|].
  exact IH.
Qed.

(** C10. For a key whose organization row has a NULL status,
    [validate_api_key] returns the same row as when that status is
    'active', and never a reason ['organization_' || s]. *)
Theorem null_status_passes (c : clock) (d : db) (h : string) (k : api_key)
    (o : organization) :
  find_key d h = Some k ->
  find_org d (ak_organization_id k) = Some o ->
  status o = None ->
  fst (validate_api_key c d h)
    = fst (validate_api_key c (with_org_active d (ak_organization_id k)) h)
  /\ (forall s, rejection_reason (fst (validate_api_key c d h))
                <> Some (String.append "organization_" (org_status_text s))).
Proof.
  intros Hk Ho Hs.
  pose proof (find_org_activate d (ak_organization_id k) o Ho) as Ho'.
  assert (Hid : o_id o = ak_organization_id k)
    by (unfold find_org in Ho; apply find_some in Ho as [_ Ho]; apply Z.eqb_eq; exact Ho).
  unfold activate_org in Ho'. rewrite Hid, Z.eqb_refl in Ho'.
  unfold validate_api_key.
  change (find_key (with_org_active d (ak_organization_id k)) h) with (find_key d h).
  change (find_tier (with_org_active d (ak_organization_id k))) with (find_tier d).
  change (get_org_monthly_usage c (with_org_active d (ak_organization_id k)))
    with (get_org_monthly_usage c d).
  rewrite Hk, Ho, Ho'. cbv zeta.
  unfold org_status_rejection, org_status_of, subscription_inactive_cond,
    org_subscription_status_of, org_name_of, org_tier_id_of.
  cbn [status subscription_status subscription_tier_id o_name option_map].
  rewrite Hs. split.
  - split_matches; reflexivity.
  - intros s. destruct s; split_matches; cbn; discriminate.
Qed.

(** An organization whose status is NULL: its key is allowed. *)
Lemma null_status_passes_witness :
  is_valid (fst (validate_api_key sample_clock
         (sample_db (sample_key None (Some true) None)
            [sample_org None (Some SubActive) (Some "free")] 500) "h")) = true
  /\ fst (validate_api_key sample_clock
         (sample_db (sample_key None (Some true) None)
            [sample_org None (Some SubActive) (Some "free")] 500) "h")
     = fst (validate_api_key sample_clock
         (with_org_active (sample_db (sample_key None (Some true) None)
            [sample_org None (Some SubActive) (Some "free")] 500) 1) "h").
Proof.
  split; [reflexivity|].
  apply (null_status_passes sample_clock
           (sample_db (sample_key None (Some true) None)
              [sample_org None (Some SubActive) (Some "free")] 500) "h"
           (sample_key None (Some true) None) (sample_org None (Some SubActive) (Some "free")));
    reflexivity.
Defined.

(** * Properties of the functions around the gate *)

(** ** The two definitions of [validate_api_key] *)

(** The admin-system migration's [validate_api_key] returns what the earlier
    definition returns, except for a key that passes the key checks and whose
    organization has a status other than 'active': that key is rejected with
    ['organization_' || status] and the store is left unchanged. *)
Theorem validate_api_key_migration (c : clock) (d : db) (h : string) :
  validate_api_key c d h = validate_api_key_v1 c d h
  \/ (exists k s, find_key d h = Some k
        /\ key_disabled_cond k = false /\ key_expired_cond c k = false
        /\ org_status_of (find_org d (ak_organization_id k)) = Some s /\ s <> Active
        /\ validate_api_key c d h
           = (mk_row (Some (ak_id k)) (Some (ak_organization_id k))
                (org_name_of (find_org d (ak_organization_id k)))
                (org_tier_id_of (find_org d (ak_organization_id k))) None None false
                (Some (String.append "organization_" (org_status_text s))), d)).
Proof.
  unfold validate_api_key, validate_api_key_v1.
  destruct (find_key d h) as [k|]; [|left; reflexivity].
  destruct (key_disabled_cond k) eqn:Hdis; [left; reflexivity|].
  destruct (key_expired_cond c k) eqn:Hexp; [left; reflexivity|].
  cbv zeta. unfold org_status_rejection.
  destruct (org_status_of (find_org d (ak_organization_id k))) as [s|] eqn:Hs;
    [|left; reflexivity].
  destruct s; [left; reflexivity| | |];
    right; exists k; eexists; repeat split; try eassumption; try reflexivity; discriminate.
Qed.

(** ** [is_admin] *)

Lemma is_admin_cases (admins : list admin_user) (u : uuid) (r : option string) :
  is_admin admins u r
  = match admin_role_of admins u with
    | None => false
    | Some role =>
        match r with
        | Some r =>
            if String.eqb r "super_admin" then
              match role with SuperAdmin => true | _ => false end
            else if String.eqb r "admin" then
              match role with Support => false | _ => true end
            else true
        | None => true
        end
    end.
Proof.
  unfold is_admin, get_admin_role.
  destruct (admin_role_of admins u) as [role|]; [|reflexivity]. cbn [option_map].
  destruct r as [r|]; [|reflexivity].
  destruct (String.eqb r "super_admin"); [destruct role; reflexivity|].
  destruct (String.eqb r "admin"); [destruct role; reflexivity | reflexivity].
Qed.

(** [is_admin(u, required_role)] holds exactly when [u] has a row in
    [admin_users] whose role meets the requirement: 'super_admin' requires the
    role super_admin, 'admin' requires super_admin or admin, and any other
    [required_role] requires only the row. *)
Theorem is_admin_iff_role (admins : list admin_user) (u : uuid) (r : option string) :
  is_admin admins u r = true
  <-> exists role, admin_role_of admins u = Some role
        /\ (r = Some "super_admin" -> role = SuperAdmin)
        /\ (r = Some "admin" -> role <> Support).
Proof.
  rewrite is_admin_cases.
  destruct (admin_role_of admins u) as [role|].
  2:{ split; [discriminate | intros [? [H _]]; discriminate H]. }
  split.
  - intros H. exists role. split; [reflexivity|].
    split; intros ->; cbn in H; destruct role; congruence.
  - intros [role' [Hr [Hsa Ha]]]. injection Hr as <-.
    destruct r as [r|]; [|reflexivity].
    destruct (String.eqb_spec r "super_admin") as [->|Hn1].
    + rewrite (Hsa eq_refl). reflexivity.
    + destruct (String.eqb_spec r "admin") as [->|Hn2]; [|reflexivity].
      destruct role; [reflexivity | reflexivity | exfalso; exact (Ha eq_refl eq_refl)].
Qed.

(** Every user with a row in [admin_users], a 'support' one included, passes
    [is_admin] for a NULL [required_role] and for every text other than exactly
    'super_admin' and 'admin' (a misspelt role such as 'superadmin' or 'Admin'
    included). *)
Theorem is_admin_other_role_any_admin (admins : list admin_user) (u : uuid)
    (r : option string) :
  get_admin_role admins u <> None ->
  r <> Some "super_admin" -> r <> Some "admin" ->
  is_admin admins u r = true.
Proof.
  intros Hrow Hsa Ha. rewrite is_admin_cases.
  unfold get_admin_role in Hrow.
  destruct (admin_role_of admins u) as [role|]; [|contradiction Hrow; reflexivity].
  destruct r as [r|]; [|reflexivity].
  destruct (String.eqb_spec r "super_admin") as [->|_]; [contradiction Hsa; reflexivity|].
  destruct (String.eqb_spec r "admin") as [->|_]; [contradiction Ha; reflexivity|].
  reflexivity.
Qed.

(** A 'support' admin and the misspelt role 'superadmin'. *)
Lemma is_admin_other_role_any_admin_witness :
  is_admin [mk_admin_user 9 Support] 9 (Some "superadmin") = true.
Proof.
  apply is_admin_other_role_any_admin; [vm_compute; discriminate | discriminate | discriminate].
Defined.

(** ** E-mail domains and [auto_assign_enterprise_tier] *)

Lemma string_append_empty_r (s : string) : String.append s EmptyString = s.
Proof. induction s as [|a s IH]; cbn; [reflexivity | rewrite IH; reflexivity]. Qed.

Lemma split_fields_no_char (c : ascii) (s rest : string) :
  no_char c s = true ->
  split_fields c (String.append s rest)
  = (String.append s (fst (split_fields c rest)), snd (split_fields c rest)).
Proof.
  induction s as [|a s IH]; cbn; intros H.
  - destruct (split_fields c rest); reflexivity.
  - apply andb_true_iff in H as [Ha Hs]. rewrite (IH Hs).
    apply negb_true_iff in Ha. rewrite Ha. reflexivity.
Qed.

(** The part of [local@domain...] that [split_part(_, '@', 2)] returns. *)
Lemma split_part_email (l dom rest : string) :
  no_char "@" l = true -> no_char "@" dom = true ->
  (rest = EmptyString \/ exists r, rest = String "@" r) ->
  split_part (Some (String.append l (String "@" (String.append dom rest)))) "@" 2
  = Some dom.
Proof.
  intros Hl Hd Hrest. unfold split_part. cbn [option_map].
  rewrite (split_fields_no_char _ _ _ Hl). cbn [split_fields fst snd].
  rewrite (split_fields_no_char _ _ _ Hd).
  destruct Hrest as [-> | [r ->]].
  - cbn. rewrite !string_append_empty_r. reflexivity.
  - cbn [split_fields]. destruct (split_fields "@" r).
    cbn. rewrite string_append_empty_r. reflexivity.
Qed.

Lemma split_fields_none (c : ascii) (s : string) :
  no_char c s = true -> split_fields c s = (s, []).
Proof.
  intros H. pose proof (split_fields_no_char c s EmptyString H) as E.
  rewrite string_append_empty_r in E. rewrite E. cbn. rewrite string_append_empty_r.
  reflexivity.
Qed.

Lemma existsb_domain_iff (ds : list enterprise_email_domain) (dom : string) :
  existsb (domain_row_matches (Some dom)) ds = true
  <-> exists r, In r ds /\ ed_domain r = dom /\ ed_is_active r = Some true.
Proof.
  rewrite existsb_exists. split.
  - intros [r [Hin Hm]]. exists r. cbn in Hm. apply andb_true_iff in Hm as [H1 H2].
    apply String.eqb_eq in H1. split; [exact Hin|]. split; [exact H1|].
    destruct (ed_is_active r) as [[|]|]; [reflexivity | discriminate | discriminate].
  - intros [r [Hin [H1 H2]]]. exists r. split; [exact Hin|]. cbn.
    rewrite H1, H2, String.eqb_refl. reflexivity.
Qed.

(** An e-mail [local@domain], or [local@domain@...], with no '@' in [local]
    and [domain], is an enterprise e-mail exactly when an active row of
    [enterprise_email_domains] has the domain [domain], compared as text: what
    follows a second '@' is not looked at. *)
Theorem enterprise_domain_second_field (ds : list enterprise_email_domain)
    (l dom rest : string) :
  no_char "@" l = true -> no_char "@" dom = true ->
  (rest = EmptyString \/ exists r, rest = String "@" r) ->
  is_enterprise_domain ds (Some (String.append l (String "@" (String.append dom rest))))
    = true
  <-> exists r, In r ds /\ ed_domain r = dom /\ ed_is_active r = Some true.
Proof.
  intros Hl Hd Hrest. unfold is_enterprise_domain.
  rewrite (split_part_email l dom rest Hl Hd Hrest). apply existsb_domain_iff.
Qed.

(** [a@snoopdrive.com@evil.example] is classified by [snoopdrive.com]. *)
Lemma enterprise_domain_second_field_witness :
  is_enterprise_domain seeded_domains (Some "a@snoopdrive.com@evil.example") = true.
Proof.
  apply (proj2 (enterprise_domain_second_field seeded_domains "a" "snoopdrive.com"
                  "@evil.example" eq_refl eq_refl
                  (or_intror (ex_intro _ "evil.example" eq_refl)))).
  exists (mk_domain "snoopdrive.com" (Some "enterprise") (Some true)).
  split; [left; reflexivity | split; reflexivity].
Defined.

(** An e-mail with no '@' has the empty text as its domain: it is an
    enterprise e-mail only when an active row has the empty domain. A NULL
    e-mail is never one. *)
Theorem enterprise_domain_without_at (ds : list enterprise_email_domain) (e : string) :
  no_char "@" e = true ->
  (is_enterprise_domain ds (Some e) = true
   <-> exists r, In r ds /\ ed_domain r = EmptyString /\ ed_is_active r = Some true)
  /\ is_enterprise_domain ds None = false.
Proof.
  intros He. split.
  - unfold is_enterprise_domain, split_part. cbn [option_map].
    rewrite (split_fields_none _ _ He). cbn. apply existsb_domain_iff.
  - unfold is_enterprise_domain. cbn. induction ds as [|r ds IH]; [reflexivity | exact IH].
Qed.

(** With the seeded domains, ['alice'] is not an enterprise e-mail. *)
Lemma enterprise_domain_without_at_witness :
  is_enterprise_domain seeded_domains (Some "alice") = false.
Proof.
  destruct (enterprise_domain_without_at seeded_domains "alice" eq_refl) as [H _].
  destruct (is_enterprise_domain seeded_domains (Some "alice")) eqn:E; [|reflexivity].
  destruct (proj1 H eq_refl) as [r [[<-|[<-|[]]] [Hd _]]]; discriminate Hd.
Defined.

Lemma find_some_existsb {A : Type} (p : A -> bool) (l : list A) :
  existsb p l = match find p l with Some _ => true | None => false end.
Proof.
  induction l as [|a l IH]; cbn; [reflexivity|]. destruct (p a); [reflexivity | exact IH].
Qed.

(** [get_enterprise_tier_for_email] finds a tier only for an enterprise e-mail;
    conversely, when every active domain row has a tier, every enterprise
    e-mail gets one (a row with a NULL [tier_id] makes the e-mail enterprise
    with a NULL tier). *)
Theorem enterprise_tier_agrees (ds : list enterprise_email_domain) (e : option string) :
  (get_enterprise_tier_for_email ds e <> None -> is_enterprise_domain ds e = true)
  /\ ((forall r, In r ds -> ed_is_active r = Some true -> ed_tier_id r <> None) ->
      is_enterprise_domain ds e = true -> get_enterprise_tier_for_email ds e <> None).
Proof.
  unfold get_enterprise_tier_for_email, is_enterprise_domain.
  rewrite find_some_existsb.
  destruct (find (domain_row_matches (split_part e "@" 2)) ds) as [r|] eqn:Hf.
  - split; [reflexivity|]. intros Hall _. apply Hall.
    + exact (proj1 (find_some _ _ Hf)).
    + pose proof (proj2 (find_some _ _ Hf)) as Hm. unfold domain_row_matches in Hm.
      destruct (split_part e "@" 2); [|discriminate].
      apply andb_true_iff in Hm as [_ Hm].
      destruct (ed_is_active r) as [[|]|]; [reflexivity | discriminate | discriminate].
  - split; [intros H; contradiction H; reflexivity | intros _ H; discriminate H].
Qed.

(** The trigger sets the new organization's tier to
    [get_enterprise_tier_for_email(owner's e-mail)] exactly when
    [is_enterprise_domain(owner's e-mail)] holds, and otherwise inserts the row
    as given. *)
Theorem auto_assign_via_helpers (users : list auth_user)
    (ds : list enterprise_email_domain) (owner : option uuid) (NEW : organization) :
  auto_assign_enterprise_tier users ds owner NEW
  = if is_enterprise_domain ds (owner_email users owner)
    then set_subscription_tier_id NEW
           (get_enterprise_tier_for_email ds (owner_email users owner))
    else NEW.
Proof.
  unfold auto_assign_enterprise_tier, is_enterprise_domain, get_enterprise_tier_for_email.
  destruct (owner_email users owner) as [e|].
  - rewrite find_some_existsb.
    destruct (find (domain_row_matches (split_part (Some e) "@" 2)) ds); reflexivity.
  - cbn. induction ds as [|r ds IH]; [reflexivity | exact IH].
Qed.

(** The trigger changes no column of the new organization but
    [subscription_tier_id]; it leaves the row as given when the owner has no
    e-mail (no owner, no user, or a NULL e-mail); and it only ever sets the
    tier of an active domain row whose domain is the owner's e-mail domain. *)
Theorem auto_assign_only_tier (users : list auth_user)
    (ds : list enterprise_email_domain) (owner : option uuid) (NEW : organization) :
  let o := auto_assign_enterprise_tier users ds owner NEW in
  o_id o = o_id NEW /\ o_name o = o_name NEW
  /\ subscription_status o = subscription_status NEW /\ status o = status NEW
  /\ (owner_email users owner = None -> o = NEW)
  /\ (subscription_tier_id o = subscription_tier_id NEW
      \/ exists r, In r ds /\ ed_is_active r = Some true
           /\ split_part (owner_email users owner) "@" 2 = Some (ed_domain r)
           /\ subscription_tier_id o = ed_tier_id r).
Proof.
  cbv zeta. unfold auto_assign_enterprise_tier.
  destruct (owner_email users owner) as [e|].
  2:{ split; [reflexivity|]. split; [reflexivity|]. split; [reflexivity|].
      split; [reflexivity|]. split; [intros _; reflexivity | left; reflexivity]. }
  destruct (find (domain_row_matches (split_part (Some e) "@" 2)) ds) as [r|] eqn:Hf.
  - split; [reflexivity|]. split; [reflexivity|]. split; [reflexivity|].
    split; [reflexivity|]. split; [discriminate|]. right. exists r.
    destruct (find_some _ _ Hf) as [Hin Hm]. unfold domain_row_matches in Hm.
    destruct (split_part (Some e) "@" 2) as [dom|]; [|discriminate].
    apply andb_true_iff in Hm as [Hd Ha]. apply String.eqb_eq in Hd.
    split; [exact Hin|]. split.
    + destruct (ed_is_active r) as [[|]|]; [reflexivity | discriminate | discriminate].
    + split; [rewrite Hd; reflexivity | reflexivity].
  - split; [reflexivity|]. split; [reflexivity|]. split; [reflexivity|].
    split; [reflexivity|]. split; [discriminate | left; reflexivity].
Qed.

(** With the seeded domains and tiers, an organization inserted by an owner
    whose e-mail is [local@snoopdrive.com] or [local@driveclub.io] gets the
    'enterprise' tier, whose monthly limit is NULL: [validate_api_key] never
    rejects the organization's keys with 'quota_exceeded' and reports no
    monthly limit for them. *)
Theorem enterprise_owner_no_quota (users : list auth_user) (owner : option uuid)
    (NEW : organization) (l dom : string) (c : clock) (d : db) (h : string)
    (k : api_key) :
  owner_email users owner = Some (String.append l (String "@" dom)) ->
  no_char "@" l = true ->
  In dom ["snoopdrive.com"; "driveclub.io"] ->
  subscription_tiers d = seeded_tiers ->
  find_key d h = Some k ->
  find_org d (ak_organization_id k)
    = Some (auto_assign_enterprise_tier users seeded_domains owner NEW) ->
  subscription_tier_id (auto_assign_enterprise_tier users seeded_domains owner NEW)
    = Some "enterprise"
  /\ rejection_reason (fst (validate_api_key c d h)) <> Some "quota_exceeded"
  /\ monthly_limit (fst (validate_api_key c d h)) = None.
Proof.
  intros Hmail Hl Hdom Htiers Hk Ho.
  assert (Htier : auto_assign_enterprise_tier users seeded_domains owner NEW
                  = set_subscription_tier_id NEW (Some "enterprise")).
  { unfold auto_assign_enterprise_tier. rewrite Hmail.
    assert (Hdom' : no_char "@" dom = true)
      by (destruct Hdom as [<-|[<-|[]]]; reflexivity).
    pose proof (split_part_email l dom EmptyString Hl Hdom' (or_introl eq_refl)) as Hs.
    rewrite string_append_empty_r in Hs. rewrite Hs.
    destruct Hdom as [<-|[<-|[]]]; reflexivity. }
  rewrite Htier in Ho |- *. split; [reflexivity|].
  unfold validate_api_key. rewrite Hk.
  destruct (key_disabled_cond k).
  { cbn. split; [discriminate | reflexivity]. }
  idtac.
  destruct (key_expired_cond c k); [cbn; split; [discriminate | reflexivity]|].
  cbv zeta. rewrite Ho.
  destruct (org_status_rejection _) as [reason|] eqn:Hrej.
  { cbn. split; [|reflexivity]. unfold org_status_rejection in Hrej.
    destruct (org_status_of _) as [[| | |]|]; try discriminate Hrej;
      injection Hrej as <-; discriminate. }
  destruct (subscription_inactive_cond _); [cbn; split; [discriminate | reflexivity]|].
  unfold find_tier. rewrite Htiers. cbn. split; [discriminate | reflexivity].
Qed.

(** An owner at [snoopdrive.com] whose key is active. *)
Lemma enterprise_owner_no_quota_witness :
  rejection_reason (fst (validate_api_key sample_clock
     (mk_db [sample_key None (Some true) None]
        [set_subscription_tier_id (sample_org (Some Active) (Some SubActive) (Some "free"))
           (Some "enterprise")]
        seeded_tiers [usage_row (mk_date 2024 12 3) 5000000]) "h"))
  <> Some "quota_exceeded".
Proof.
  destruct (enterprise_owner_no_quota [mk_auth_user 2 (Some "alice@snoopdrive.com")] (Some 2)
              (sample_org (Some Active) (Some SubActive) (Some "free")) "alice"
              "snoopdrive.com" sample_clock
              (mk_db [sample_key None (Some true) None]
                 [set_subscription_tier_id (sample_org (Some Active) (Some SubActive) (Some "free"))
                    (Some "enterprise")]
                 seeded_tiers [usage_row (mk_date 2024 12 3) 5000000]) "h"
              (sample_key None (Some true) None)) as [_ [H _]];
    [reflexivity | reflexivity | left; reflexivity | reflexivity | reflexivity
    | reflexivity | exact H].
Defined.

(** ** [accept_invite] *)

Lemma NoDup_map_in_eq {A B : Type} (f : A -> B) (l : list A) (x y : A) :
  NoDup (map f l) -> In x l -> In y l -> f x = f y -> x = y.
Proof.
  induction l as [|a l IH]; cbn; intros Hnd Hx Hy Hf; [contradiction|].
  inversion Hnd as [|? ? Ha Hl]; subst.
  destruct Hx as [<-|Hx], Hy as [<-|Hy]; try reflexivity.
  - exfalso. apply Ha. rewrite Hf. apply in_map. exact Hy.
  - exfalso. apply Ha. rewrite <- Hf. apply in_map. exact Hx.
  - exact (IH Hl Hx Hy Hf).
Qed.

Lemma find_none_all {A : Type} (p : A -> bool) (l : list A) :
  (forall x, In x l -> p x = false) -> find p l = None.
Proof.
  induction l as [|a l IH]; cbn; intros H; [reflexivity|].
  rewrite (H a (or_introl eq_refl)). apply IH. intros x Hx. apply H. right. exact Hx.
Qed.

Lemma invite_usable_token (c : clock) (tok : string) (i : user_invite) :
  invite_usable c tok i = true -> ui_token i = tok.
Proof.
  unfold invite_usable. intros H. apply andb_true_iff in H as [H _].
  apply andb_true_iff in H as [H _]. apply String.eqb_eq. exact H.
Qed.

Lemma mark_accepted_token (c : clock) (id : uuid) (i : user_invite) :
  ui_token (mark_accepted c id i) = ui_token i.
Proof. unfold mark_accepted. destruct (ui_id i =? id); reflexivity. Qed.

(** With the tokens UNIQUE, the usable invite of a token is the one [find]
    returns. *)
Lemma find_usable_invite (c : clock) (tok : string) (invites : list user_invite)
    (v : user_invite) :
  NoDup (map ui_token invites) -> In v invites -> invite_usable c tok v = true ->
  find (invite_usable c tok) invites = Some v.
Proof.
  intros Hnd Hin Hv.
  destruct (find (invite_usable c tok) invites) as [w|] eqn:Hf.
  - destruct (find_some _ _ Hf) as [Hw Hu]. f_equal.
    apply (NoDup_map_in_eq ui_token invites); try assumption.
    rewrite (invite_usable_token _ _ _ Hu), (invite_usable_token _ _ _ Hv). reflexivity.
  - exfalso. rewrite (find_none _ _ Hf v Hin) in Hv. discriminate.
Qed.

(** Accepting a usable invite (its token given, not yet accepted, expiring
    after [NOW()]) for an existing user who is not yet a member of its
    organization adds that user to the organization with the invite's role and
    inviter, marks the invite accepted, and returns the new member row's id.
    The invite's e-mail is not compared with the user's. *)
Theorem accept_invite_joins (c : clock) (fresh : uuid) (s : team_db) (tok : string)
    (u : uuid) (v : user_invite) :
  NoDup (map ui_token (user_invites s)) ->
  In v (user_invites s) -> ui_token v = tok -> ui_accepted_at v = None ->
  now c < ui_expires_at v ->
  (exists x, In x (auth_users s) /\ u_id x = u) ->
  (forall m, In m (organization_members s) -> member_key m <> (ui_organization_id v, u)) ->
  accept_invite c fresh s tok u
  = Some (AcceptJoined fresh (ui_organization_id v) (ui_role v),
          mk_team_db (auth_users s) (map (mark_accepted c (ui_id v)) (user_invites s))
            (organization_members s
             ++ [mk_member fresh (ui_organization_id v) u (ui_role v)
                   (Some (ui_invited_by v))])).
Proof.
  intros Hnd Hin Htok Hacc Hexp [x [Hx Hxu]] Hnot.
  unfold accept_invite.
  rewrite (find_usable_invite c tok _ v Hnd Hin).
  2:{ unfold invite_usable. rewrite Htok, Hacc, String.eqb_refl.
      apply Z.ltb_lt in Hexp. rewrite Hexp. reflexivity. }
  destruct (existsb (is_member_of (ui_organization_id v) u) (organization_members s)) eqn:Hm.
  - exfalso. apply existsb_exists in Hm as [m [Hmin Hmm]].
    apply (Hnot m Hmin). unfold is_member_of in Hmm. apply andb_true_iff in Hmm as [H1 H2].
    apply Z.eqb_eq in H1, H2. unfold member_key. rewrite H1, H2. reflexivity.
  - replace (existsb (fun u0 => u_id u0 =? u) (auth_users s)) with true; [reflexivity|].
    symmetry. apply existsb_exists. exists x. split; [exact Hx|]. apply Z.eqb_eq. exact Hxu.
Qed.

(** Bob's invite, accepted by Carol (user 3), who is not a member. *)
Lemma accept_invite_joins_witness :
  accept_invite sample_clock 70 sample_team "tok" 3
  = Some (AcceptJoined 70 1 OrgMember,
          mk_team_db (auth_users sample_team)
            (map (mark_accepted sample_clock 50) (user_invites sample_team))
            (organization_members sample_team ++ [mk_member 70 1 3 OrgMember (Some 2)])).
Proof.
  apply (accept_invite_joins sample_clock 70 sample_team "tok" 3 sample_invite).
  - vm_compute. constructor; [intros [] | constructor].
  - left. reflexivity.
  - reflexivity.
  - reflexivity.
  - vm_compute. reflexivity.
  - exists (mk_auth_user 3 (Some "carol@other.org")). split; [right; left; reflexivity | reflexivity].
  - intros m [<-|[]]. discriminate.
Defined.

(** An invite is used once: after a call that does not fail, every later call
    with the same token, by any user and at any time, fails with 'Invalid or
    expired invite' and changes nothing. *)
Theorem accept_invite_single_use (c c' : clock) (fresh fresh' : uuid) (s s' : team_db)
    (tok : string) (u u' : uuid) (res : accept_result) :
  NoDup (map ui_token (user_invites s)) ->
  accept_invite c fresh s tok u = Some (res, s') ->
  (forall e, res <> AcceptFailed e) ->
  accept_invite c' fresh' s' tok u' = Some (AcceptFailed "Invalid or expired invite", s').
Proof.
  intros Hnd Hcall Hok. unfold accept_invite in Hcall.
  destruct (find (invite_usable c tok) (user_invites s)) as [v|] eqn:Hf.
  2:{ injection Hcall as <- _. exfalso. exact (Hok _ eq_refl). }
  destruct (find_some _ _ Hf) as [Hvin Hvu].
  assert (Hinv : user_invites s' = map (mark_accepted c (ui_id v)) (user_invites s)).
  { destruct (existsb (is_member_of (ui_organization_id v) u) (organization_members s)).
    - injection Hcall as _ <-. reflexivity.
    - destruct (existsb (fun u0 => u_id u0 =? u) (auth_users s)); [|discriminate].
      injection Hcall as _ <-. reflexivity. }
  unfold accept_invite. rewrite find_none_all; [reflexivity|].
  intros i Hi. rewrite Hinv in Hi. apply in_map_iff in Hi as [x [<- Hx]].
  destruct (invite_usable c' tok (mark_accepted c (ui_id v) x)) eqn:Hu; [|reflexivity].
  exfalso. pose proof (invite_usable_token _ _ _ Hu) as Ht. rewrite mark_accepted_token in Ht.
  assert (x = v).
  { apply (NoDup_map_in_eq ui_token (user_invites s)); try assumption.
    rewrite Ht. symmetry. exact (invite_usable_token _ _ _ Hvu). }
  subst x. revert Hu. unfold invite_usable, mark_accepted. rewrite Z.eqb_refl. cbn.
  intros H. apply andb_true_iff in H as [H _]. apply andb_true_iff in H as [_ H].
  discriminate H.
Qed.

(** Carol accepts Bob's invite; a second use of the token, the next day by
    Alice, fails. *)
Lemma accept_invite_single_use_witness :
  accept_invite later_clock 71
    (mk_team_db (auth_users sample_team)
       (map (mark_accepted sample_clock 50) (user_invites sample_team))
       (organization_members sample_team ++ [mk_member 70 1 3 OrgMember (Some 2)]))
    "tok" 2
  = Some (AcceptFailed "Invalid or expired invite",
          mk_team_db (auth_users sample_team)
            (map (mark_accepted sample_clock 50) (user_invites sample_team))
            (organization_members sample_team ++ [mk_member 70 1 3 OrgMember (Some 2)])).
Proof.
  apply (accept_invite_single_use sample_clock later_clock 70 71 sample_team _ "tok" 3 2
           (AcceptJoined 70 1 OrgMember)).
  - vm_compute. constructor; [intros [] | constructor].
  - vm_compute. reflexivity.
  - intros e. discriminate.
Defined.

(** A call of [accept_invite] keeps UNIQUE(organization_id, user_id) of
    [organization_members], removes no member row and no user; and when it
    does not fail, the user is afterwards a member of the organization of an
    invite with the given token. *)
Theorem accept_invite_members (c : clock) (fresh : uuid) (s s' : team_db) (tok : string)
    (u : uuid) (res : accept_result) :
  NoDup (map member_key (organization_members s)) ->
  accept_invite c fresh s tok u = Some (res, s') ->
  NoDup (map member_key (organization_members s'))
  /\ (forall m, In m (organization_members s) -> In m (organization_members s'))
  /\ auth_users s' = auth_users s
  /\ ((forall e, res <> AcceptFailed e) ->
      exists i m, In i (user_invites s) /\ ui_token i = tok
        /\ In m (organization_members s') /\ member_key m = (ui_organization_id i, u)).
Proof.
  intros Hnd Hcall. unfold accept_invite in Hcall.
  destruct (find (invite_usable c tok) (user_invites s)) as [v|] eqn:Hf.
  2:{ injection Hcall as <- <-. split; [exact Hnd|]. split; [intros m Hm; exact Hm|].
      split; [reflexivity|]. intros Hok. exfalso. exact (Hok _ eq_refl). }
  destruct (find_some _ _ Hf) as [Hvin Hvu].
  destruct (existsb (is_member_of (ui_organization_id v) u) (organization_members s)) eqn:Hm.
  - injection Hcall as <- <-. cbn [organization_members auth_users user_invites].
    split; [exact Hnd|]. split; [intros m H; exact H|]. split; [reflexivity|].
    intros _. apply existsb_exists in Hm as [m [Hmin Hmm]].
    exists v, m. split; [exact Hvin|]. split; [exact (invite_usable_token _ _ _ Hvu)|].
    split; [exact Hmin|]. unfold is_member_of in Hmm. apply andb_true_iff in Hmm as [H1 H2].
    apply Z.eqb_eq in H1, H2. unfold member_key. rewrite H1, H2. reflexivity.
  - destruct (existsb (fun u0 => u_id u0 =? u) (auth_users s)); [|discriminate].
    injection Hcall as <- <-. cbn [organization_members auth_users user_invites].
    split.
    + rewrite map_app. apply NoDup_snoc; [exact Hnd|]. cbn.
      intros Hin. apply in_map_iff in Hin as [m [Hk Hmin]].
      assert (Hyes : is_member_of (ui_organization_id v) u m = true).
      { unfold member_key in Hk. injection Hk as H1 H2. unfold is_member_of.
        rewrite H1, H2, !Z.eqb_refl. reflexivity. }
      assert (existsb (is_member_of (ui_organization_id v) u) (organization_members s) = true)
        by (apply existsb_exists; exists m; split; assumption).
      congruence.
    + split; [intros m H; apply in_or_app; left; exact H|]. split; [reflexivity|].
      intros _. exists v, (mk_member fresh (ui_organization_id v) u (ui_role v)
                                (Some (ui_invited_by v))).
      split; [exact Hvin|]. split; [exact (invite_usable_token _ _ _ Hvu)|].
      split; [apply in_or_app; right; left; reflexivity | reflexivity].
Qed.

(** Carol's acceptance of Bob's invite. *)
Lemma accept_invite_members_witness :
  NoDup (map member_key (organization_members
     (mk_team_db (auth_users sample_team)
        (map (mark_accepted sample_clock 50) (user_invites sample_team))
        (organization_members sample_team ++ [mk_member 70 1 3 OrgMember (Some 2)])))).
Proof.
  apply (accept_invite_members sample_clock 70 sample_team _ "tok" 3
           (AcceptJoined 70 1 OrgMember)).
  - vm_compute. constructor; [intros [] | constructor].
  - vm_compute. reflexivity.
Defined.

(** When no invite with the token is usable (each one already accepted, or
    with [expires_at <= NOW()], the expiry instant itself included), the call
    fails with 'Invalid or expired invite' and changes nothing. *)
Theorem accept_invite_rejects_unusable (c : clock) (fresh : uuid) (s : team_db)
    (tok : string) (u : uuid) :
  (forall i, In i (user_invites s) -> ui_token i = tok ->
     ui_accepted_at i <> None \/ ui_expires_at i <= now c) ->
  accept_invite c fresh s tok u = Some (AcceptFailed "Invalid or expired invite", s).
Proof.
  intros H. unfold accept_invite. rewrite find_none_all; [reflexivity|].
  intros i Hi. destruct (invite_usable c tok i) eqn:Hu; [|reflexivity].
  exfalso. pose proof (invite_usable_token _ _ _ Hu) as Ht.
  destruct (H i Hi Ht) as [Ha | Hle]; unfold invite_usable in Hu;
    apply andb_true_iff in Hu as [Hu Hlt]; apply andb_true_iff in Hu as [_ Hacc].
  - destruct (ui_accepted_at i); [discriminate | contradiction Ha; reflexivity].
  - apply Z.ltb_lt in Hlt. lia.
Qed.

(** Bob's invite at its expiry instant. *)
Lemma accept_invite_rejects_unusable_witness :
  accept_invite (mk_clock 5000 (mk_date 2024 12 20)) 70 sample_team "tok" 3
  = Some (AcceptFailed "Invalid or expired invite", sample_team).
Proof.
  apply accept_invite_rejects_unusable.
  intros i [<-|[]] _. right. cbn. lia.
Defined.

(** ** [increment_daily_usage] followed by [get_org_monthly_usage] *)

Lemma add_counter_some (v v' : option Z) (p : Z) :
  add_counter v (Some p) = Some v' -> v' = option_map (fun x => x + p) v.
Proof.
  destruct v as [x|]; cbn.
  - destruct (int4 (x + p)) as [y|] eqn:Hy; cbn; [|discriminate].
    intros H. injection H as <-. apply int4_some in Hy. subst y. reflexivity.
  - intros H. injection H as <-. reflexivity.
Qed.

Lemma bump_rows_some (m : usage_daily_row -> bool) (pr pt : Z)
    (rows rows' : list usage_daily_row) :
  bump_rows m (Some pr) (Some pt) rows = Some rows' -> rows' = map (bump m pr pt) rows.
Proof.
  revert rows'. induction rows as [|r rs IH]; cbn; intros rows' H.
  - injection H as <-. reflexivity.
  - unfold bump at 1. destruct (m r).
    + destruct (add_counter (request_count r) (Some pr)) as [rc|] eqn:Hrc; [|discriminate].
      destruct (add_counter (tokens_used r) (Some pt)) as [tu|] eqn:Htu; [|discriminate].
      destruct (bump_rows m (Some pr) (Some pt) rs) as [rs'|]; [|discriminate].
      injection H as <-. apply add_counter_some in Hrc, Htu. subst rc tu.
      rewrite (IH rs' eq_refl). reflexivity.
    + destruct (bump_rows m (Some pr) (Some pt) rs) as [rs'|]; [|discriminate].
      injection H as <-. rewrite (IH rs' eq_refl). reflexivity.
Qed.

Lemma monthly_usage_cons (c : clock) (ks : list api_key) (os : list organization)
    (ts : list subscription_tier) (r : usage_daily_row) (rows : list usage_daily_row)
    (o : uuid) :
  get_org_monthly_usage c (mk_db ks os ts (r :: rows)) o
  = if in_current_month_of c o r
    then (sum_value (request_count r) + fst (get_org_monthly_usage c (mk_db ks os ts rows) o),
          sum_value (tokens_used r) + snd (get_org_monthly_usage c (mk_db ks os ts rows) o))
    else get_org_monthly_usage c (mk_db ks os ts rows) o.
Proof. reflexivity. Qed.

Lemma monthly_usage_snoc (c : clock) (ks : list api_key) (os : list organization)
    (ts : list subscription_tier) (rows : list usage_daily_row) (x : usage_daily_row)
    (o : uuid) :
  get_org_monthly_usage c (mk_db ks os ts (rows ++ [x])) o
  = if in_current_month_of c o x
    then (fst (get_org_monthly_usage c (mk_db ks os ts rows) o) + sum_value (request_count x),
          snd (get_org_monthly_usage c (mk_db ks os ts rows) o) + sum_value (tokens_used x))
    else get_org_monthly_usage c (mk_db ks os ts rows) o.
Proof.
  induction rows as [|r rs IH]; cbn [app].
  - rewrite monthly_usage_cons. cbn. destruct (in_current_month_of c o x); [|reflexivity].
    f_equal; lia.
  - rewrite !monthly_usage_cons, IH.
    destruct (in_current_month_of c o x), (in_current_month_of c o r); cbn [fst snd];
      try reflexivity; f_equal; lia.
Qed.

Lemma in_month_same_key (c : clock) (o : uuid) (r r' : usage_daily_row) :
  usage_key r = usage_key r' -> in_current_month_of c o r = in_current_month_of c o r'.
Proof.
  unfold usage_key, in_current_month_of. intros H. injection H as H1 H2 _ _.
  rewrite H1, H2. reflexivity.
Qed.

Lemma map_bump_none (m : usage_daily_row -> bool) (pr pt : Z) (rows : list usage_daily_row) :
  existsb m rows = false -> map (bump m pr pt) rows = rows.
Proof.
  induction rows as [|r rs IH]; cbn; intros H; [reflexivity|].
  unfold bump at 1. destruct (m r); [discriminate|]. rewrite (IH H). reflexivity.
Qed.

Lemma monthly_usage_bump (c : clock) (ks : list api_key) (os : list organization)
    (ts : list subscription_tier) (org : uuid) (dt : date) (source endpoint : string)
    (pr pt : Z) (rows : list usage_daily_row) (o : uuid) :
  NoDup (map usage_key rows) ->
  Forall (fun r => request_count r <> None /\ tokens_used r <> None) rows ->
  get_org_monthly_usage c
    (mk_db ks os ts (map (bump (usage_key_matches org dt source endpoint) pr pt) rows)) o
  = if existsb (usage_key_matches org dt source endpoint) rows
       && in_current_month_of c o (mk_usage org dt source endpoint (Some pr) (Some pt))
    then (fst (get_org_monthly_usage c (mk_db ks os ts rows) o) + pr,
          snd (get_org_monthly_usage c (mk_db ks os ts rows) o) + pt)
    else get_org_monthly_usage c (mk_db ks os ts rows) o.
Proof.
  induction rows as [|r rs IH]; cbn [map existsb]; intros Hnd Hset.
  - cbn. reflexivity.
  - inversion Hnd as [|? ? Hr Hrs]; subst.
    inversion Hset as [|? ? [Hrc Htu] Hset']; subst.
    rewrite !monthly_usage_cons.
    destruct (usage_key_matches org dt source endpoint r) eqn:Hm.
    + assert (Hnone : existsb (usage_key_matches org dt source endpoint) rs = false).
      { destruct (existsb (usage_key_matches org dt source endpoint) rs) eqn:E; [|reflexivity].
        exfalso. apply existsb_exists in E as [y [Hy Hmy]].
        apply usage_key_matches_spec in Hm, Hmy. apply Hr. rewrite Hm, <- Hmy.
        apply in_map. exact Hy. }
      rewrite (map_bump_none _ _ _ _ Hnone).
      assert (Hk : usage_key r = usage_key (mk_usage org dt source endpoint (Some pr) (Some pt)))
        by (apply usage_key_matches_spec in Hm; rewrite Hm; reflexivity).
      unfold bump. rewrite Hm. cbn [orb andb].
      rewrite (in_month_same_key c o
                 (mk_usage (ud_organization_id r) (ud_date r) (ud_source r) (ud_endpoint r)
                    (option_map (fun x => x + pr) (request_count r))
                    (option_map (fun x => x + pt) (tokens_used r))) r eq_refl).
      rewrite (in_month_same_key c o r _ Hk).
      destruct (request_count r) as [a|]; [|contradiction].
      destruct (tokens_used r) as [b|]; [|contradiction].
      destruct (in_current_month_of c o (mk_usage org dt source endpoint (Some pr) (Some pt)));
        cbn [fst snd request_count tokens_used option_map sum_value];
        [f_equal; lia | reflexivity].
    + assert (Hbr : bump (usage_key_matches org dt source endpoint) pr pt r = r)
        by (unfold bump; rewrite Hm; reflexivity).
      rewrite Hbr. cbn [orb]. rewrite (IH Hrs Hset').
      destruct (existsb (usage_key_matches org dt source endpoint) rs
                && in_current_month_of c o (mk_usage org dt source endpoint (Some pr) (Some pt)));
        destruct (in_current_month_of c o r); cbn [fst snd]; try reflexivity; f_equal; lia.
Qed.

(** From a store with one row per composite key and no NULL counter, a call of
    [increment_daily_usage(org, dt, source, endpoint, pr, pt)] with non-NULL
    deltas that succeeds raises the monthly totals of [org] by exactly its
    deltas when [dt] is on or after the first day of the current month, and
    changes the totals of every other organization, and of [org] for an
    earlier date, not at all. *)
Theorem increment_then_monthly_usage (c : clock) (d d' : db) (org : uuid) (dt : date)
    (source endpoint : string) (pr pt : Z) (o : uuid) :
  NoDup (map usage_key (usage_daily d)) ->
  Forall (fun r => request_count r <> None /\ tokens_used r <> None) (usage_daily d) ->
  increment_daily_usage d (Some org) (Some dt) (Some source) (Some endpoint)
    (Some pr) (Some pt) = Some d' ->
  get_org_monthly_usage c d' o
  = if in_current_month_of c o (mk_usage org dt source endpoint (Some pr) (Some pt))
    then (fst (get_org_monthly_usage c d o) + pr, snd (get_org_monthly_usage c d o) + pt)
    else get_org_monthly_usage c d o.
Proof.
  intros Hnd Hset Hinc. destruct d as [ks os ts rows]. cbn [usage_daily] in Hnd, Hset.
  unfold increment_daily_usage in Hinc. cbn [usage_daily] in Hinc.
  destruct (negb _); [discriminate Hinc|].
  destruct (to_varchar 20 source) as [s'|], (to_varchar 100 endpoint) as [e'|];
    try discriminate Hinc.
  (* the stored source and endpoint may be cut, the organization and date are not *)
  change (in_current_month_of c o (mk_usage org dt source endpoint (Some pr) (Some pt)))
    with (in_current_month_of c o (mk_usage org dt s' e' (Some pr) (Some pt))).
  destruct (existsb (usage_key_matches org dt s' e') rows) eqn:Hex.
  - destruct (bump_rows (usage_key_matches org dt s' e') (Some pr) (Some pt) rows)
      as [rows'|] eqn:Hb; [|discriminate Hinc].
    injection Hinc as <-. apply bump_rows_some in Hb. subst rows'.
    unfold with_usage_daily. cbn [api_keys organizations subscription_tiers].
    rewrite (monthly_usage_bump c ks os ts org dt s' e' pr pt rows o Hnd Hset), Hex.
    reflexivity.
  - destruct (org_exists _ org); [|discriminate Hinc].
    injection Hinc as <-. unfold with_usage_daily. cbn [api_keys organizations
      subscription_tiers usage_daily].
    rewrite monthly_usage_snoc. reflexivity.
Qed.

(** Scenario A's organization records 40 tokens for today. *)
Lemma increment_then_monthly_usage_witness :
  get_org_monthly_usage sample_clock
    (record_usage (sample_db (sample_key None (Some true) None)
                     [sample_org (Some Active) (Some SubActive) (Some "free")] 500)
       1 (mk_date 2024 12 15) "api" "/lookup" 1 40) 1
  = (501, 540).
Proof.
  unfold record_usage.
  match goal with
  | |- context [increment_daily_usage ?d0 ?o0 ?t0 ?s0 ?e0 ?r0 ?k0] =>
      destruct (increment_daily_usage d0 o0 t0 s0 e0 r0 k0) as [d'|] eqn:Hinc;
        [|vm_compute in Hinc; discriminate Hinc]
  end.
  rewrite (increment_then_monthly_usage sample_clock
             (sample_db (sample_key None (Some true) None)
                [sample_org (Some Active) (Some SubActive) (Some "free")] 500)
             d' 1 (mk_date 2024 12 15) "api" "/lookup" 1 40 1); [reflexivity | | | exact Hinc].
  - vm_compute. constructor; [intros [] | constructor].
  - constructor; [cbn; split; discriminate | constructor].
Defined.
